(** * Transfer-portal tracker: consolidation and reconciliation engine

    A shallow embedding of
      - [src/agents/transfer_portal_orchestrator.py]
        ([TransferPortalOrchestrator]: refresh, consolidation, record
        merging and querying), and
      - [src/agents/news_monitor_agent.py]
        ([NewsAndSocialMonitorAgent._post_process_news_items]),
    followed by the properties of the consolidation engine.

    Modelling conventions.
      - Python [str] is a byte string ([string]); comparison is
        lexicographic on bytes, which agrees with Python's code-point order
        on UTF-8 text.  [str.lower] is modelled on the ASCII letters.
      - Python [int] is [Z]; Python [float] is a binary64 primitive float.
      - A [dict] whose iteration order is never observed is a [gmap]; a
        [dict] whose order is observed (the consolidated store, the agent
        table, the news store) is an association list in insertion order.
      - Objects mutated in place are threaded through explicitly: a
        function returns the new value of what it mutates.
      - Every clock reading ([datetime.now()], [time.time()]) is taken from
        an explicit, arbitrary sequence of instants. *)

From Stdlib Require Import ZArith String Ascii List Sorted PrimFloat Lia.
From Stdlib Require FloatAxioms SpecFloat.
From stdpp Require Import gmap strings list.

Set Warnings "-inexact-float,-clear-no-such-hyp".

(* ===================================================================== *)
(** * Python primitives used by the engine                                *)
(* ===================================================================== *)

Module Py.

(** Exceptions the modelled code meets: [KeyError] for a missing dict
    key, [ScrapeError] for whatever an agent's scrape raises. *)
Inductive exn : Type :=
| KeyError
| ScrapeError.

(** Outcome of a call: a returned value or a raised exception. *)
Inductive result (A : Type) : Type :=
| Ok (a : A)
| Raise (e : exn).
Arguments Ok {A} a.
Arguments Raise {A} e.

(** Truthiness of an optional string: [None] and [""] are falsy. *)
Definition truthy (o : option string) : bool :=
  match o with
  | Some s => negb (String.eqb s "")
  | None => false
  end.

(** Truthiness of an optional int: [None] and [0] are falsy. *)
Definition truthy_int (o : option Z) : bool :=
  match o with
  | Some z => negb (Z.eqb z 0)
  | None => false
  end.

(** Truthiness of an optional float: [None], [0.0] and [-0.0] are falsy. *)
Definition truthy_float (o : option float) : bool :=
  match o with
  | Some f => negb (PrimFloat.eqb f 0%float)
  | None => false
  end.

(** [str.lower], on ASCII letters. *)
Definition lower_ascii (a : ascii) : ascii :=
  let n := nat_of_ascii a in
  if (65 <=? n)%nat && (n <=? 90)%nat then ascii_of_nat (n + 32) else a.

Fixpoint lower (s : string) : string :=
  match s with
  | EmptyString => EmptyString
  | String a s' => String (lower_ascii a) (lower s')
  end.

(** [s.replace(" ", "")]. *)
Fixpoint remove_spaces (s : string) : string :=
  match s with
  | EmptyString => EmptyString
  | String a s' =>
      if Ascii.eqb a " "%char then remove_spaces s'
      else String a (remove_spaces s')
  end.

(** [needle in hay] on strings. *)
Fixpoint contains (needle hay : string) : bool :=
  if String.prefix needle hay then true
  else match hay with
       | EmptyString => false
       | String _ hay' => contains needle hay'
       end.

(** [l[:k]]: a negative [k] counts from the end. *)
Definition slice_to {A : Type} (k : Z) (l : list A) : list A :=
  if (0 <=? k)%Z then take (Z.to_nat k) l
  else take (length l - Z.to_nat (- k)) l.

(** [list.sort(key=...)]: a stable sort; [lt a b] is [key(a) < key(b)].
    An element is inserted in front of the first element that is not
    strictly smaller, so elements with equal keys keep their order. *)
Fixpoint insert_sorted {A : Type} (lt : A -> A -> bool) (x : A) (l : list A) : list A :=
  match l with
  | [] => [x]
  | y :: l' => if lt y x then y :: insert_sorted lt x l' else x :: y :: l'
  end.

Definition sort {A : Type} (lt : A -> A -> bool) (l : list A) : list A :=
  foldr (insert_sorted lt) [] l.

(** [min(a, b)] and [max(a, b)] on floats: the first argument is kept
    unless the second is strictly smaller (resp. larger). *)
Definition min (a b : float) : float := if PrimFloat.ltb b a then b else a.
Definition max (a b : float) : float := if PrimFloat.ltb a b then b else a.

(** [int(a / b)] for ints [a], [b] with [b <> 0]: the quotient truncated
    towards zero.  Python computes [a / b] as a correctly rounded
    binary64 value first; the two agree whenever [|a| < 2^53], which
    covers every sum of ranks a page of players can produce. *)
Definition int_truediv (a b : Z) : Z := Z.quot a b.

(** ** [int(s)] on a string *)

Definition is_space (a : ascii) : bool :=
  let n := nat_of_ascii a in
  ((9 <=? n)%nat && (n <=? 13)%nat) || ((28 <=? n)%nat && (n <=? 32)%nat).

Definition digit_of (a : ascii) : option Z :=
  let n := nat_of_ascii a in
  if (48 <=? n)%nat && (n <=? 57)%nat then Some (Z.of_nat (n - 48)) else None.

Fixpoint lstrip (l : list ascii) : list ascii :=
  match l with
  | a :: l' => if is_space a then lstrip l' else l
  | [] => []
  end.

Definition strip (l : list ascii) : list ascii :=
  rev (lstrip (rev (lstrip l))).

(** Digits, with single underscores allowed between two digits.
    [after_digit] tells whether the previous character was a digit. *)
Fixpoint parse_digits (after_digit : bool) (acc : Z) (l : list ascii) : option Z :=
  match l with
  | [] => if after_digit then Some acc else None
  | a :: l' =>
      match digit_of a with
      | Some d => parse_digits true (10 * acc + d)%Z l'
      | None =>
          if Ascii.eqb a "_"%char && after_digit then parse_digits false acc l'
          else None
      end
  end.

(** [int(s)]: [None] stands for [ValueError]. *)
Definition int_of_string (s : string) : option Z :=
  match strip (list_ascii_of_string s) with
  | a :: l' =>
      if Ascii.eqb a "-"%char then Z.opp <$> parse_digits false 0%Z l'
      else if Ascii.eqb a "+"%char then parse_digits false 0%Z l'
      else parse_digits false 0%Z (a :: l')
  | [] => None
  end.

End Py.

(** Association lists in insertion order, for dicts whose order is observed. *)
Module Alist.
Section Alist.
Context {K V : Type} `{EqDecision K}.

Fixpoint lookup (k : K) (l : list (K * V)) : option V :=
  match l with
  | [] => None
  | (k', v) :: l' => if decide (k = k') then Some v else lookup k l'
  end.

(** [d[k] = v]: replaces in place, or appends a new key at the end. *)
Fixpoint set (k : K) (v : V) (l : list (K * V)) : list (K * V) :=
  match l with
  | [] => [(k, v)]
  | (k', v') :: l' =>
      if decide (k = k') then (k, v) :: l' else (k', v') :: set k v l'
  end.

(** [d.pop(k, None)]. *)
Definition remove (k : K) (l : list (K * V)) : list (K * V) :=
  filter (fun kv => kv.1 <> k) l.

Definition keys (l : list (K * V)) : list K := l.*1.
Definition values (l : list (K * V)) : list V := l.*2.
End Alist.
End Alist.

(* ===================================================================== *)
(** * The orchestrator: data model                                        *)
(* ===================================================================== *)

(** [class DataSource(str, Enum)] *)
Inductive DataSource : Type := ON3 | RIVALS | TWO47 | ALL.

#[global] Instance DataSource_eq_dec : EqDecision DataSource.
Proof. solve_decision. Defined.

#[global] Instance DataSource_countable : Countable DataSource.
Proof.
  refine (inj_countable'
            (fun s => match s with ON3 => 0 | RIVALS => 1 | TWO47 => 2 | ALL => 3 end)%nat
            (fun n => match n with
                      | 0 => ON3 | 1 => RIVALS | 2 => TWO47 | _ => ALL
                      end)%nat _).
  by intros [].
Defined.

(** [class AgentStatus(str, Enum)] *)
Inductive AgentStatus : Type := READY | RUNNING | ERROR | INACTIVE.

#[global] Instance AgentStatus_eq_dec : EqDecision AgentStatus.
Proof. solve_decision. Defined.

(** One clock reading: what [datetime.now().isoformat()] and [time.time()]
    return at that instant. *)
Record Instant : Type := mkInstant { isoformat : string; epoch : float }.

(** [class PlayerStats(BaseModel)] *)
Module PlayerStats.
Record t : Type := mk {
  ppg : option float;
  rpg : option float;
  apg : option float;
  spg : option float;
  bpg : option float;
  fg_pct : option float;
  three_pt_pct : option float;
  ft_pct : option float;
  games : option Z;
  source : option DataSource
}.
End PlayerStats.

(** A raw record as an agent returns it ([Dict[str, Any]]).  A field is
    [None] when its key is absent or maps to [None]. *)
Module Raw.
(** The value under ["rank"]: the agents produce ints
    ([BaseTransferPortalAgent._parse_rank]); the merger also accepts
    whatever [int()] can convert. *)
Inductive rank_value : Type :=
| RankInt (z : Z)
| RankStr (s : string).

(** The mapping under ["stats"]; [get k] of each key the merger reads. *)
Record stats_dict : Type := mkStats {
  ppg : option float;
  rpg : option float;
  apg : option float;
  spg : option float;
  bpg : option float;
  fg_pct : option float;
  three_pt_pct : option float;
  ft_pct : option float
}.

Record t : Type := mk {
  name : option string;
  previous_school : option string;
  last_team : option string;
  position : option string;
  height : option string;
  class_year : option string;
  eligibility : option string;
  status : option string;
  destination_school : option string;
  new_team : option string;
  profile_url : option string;
  rank : option rank_value;
  stats : option stats_dict;       (* [None]: absent or an empty mapping *)
  nil_valuation : option string    (* the value after [str()] *)
}.

Definition rank_truthy (r : option rank_value) : bool :=
  match r with
  | Some (RankInt z) => negb (Z.eqb z 0)
  | Some (RankStr s) => negb (String.eqb s "")
  | None => false
  end.

(** [int(source_player["rank"])]; [None] stands for [ValueError]. *)
Definition rank_int (r : rank_value) : option Z :=
  match r with
  | RankInt z => Some z
  | RankStr s => Py.int_of_string s
  end.
End Raw.

(** [class TransferPlayer(BaseModel)] *)
Module TransferPlayer.
Record t : Type := mk {
  player_id : string;
  name : string;
  position : option string;
  height : option string;
  weight : option Z;
  previous_school : option string;
  class_year : option string;
  eligibility : option string;
  transfer_date : option string;
  status : option string;
  destination_school : option string;
  stats : gmap DataSource PlayerStats.t;
  rankings : gmap DataSource Z;
  composite_ranking : option Z;
  profile_urls : gmap DataSource string;
  nil_valuation : gmap DataSource string;
  sources : list DataSource;
  last_updated : gmap DataSource string
}.

(** [TransferPlayer(player_id=..., name=..., sources=[source])] *)
Definition create (pid nm : string) (srcs : list DataSource) : t :=
  mk pid nm None None None None None None None None None
     ∅ ∅ None ∅ ∅ srcs ∅.

(** [player.sources.append(source)] *)
Definition append_source (s : DataSource) (p : t) : t :=
  mk (player_id p) (name p) (position p) (height p) (weight p)
     (previous_school p) (class_year p) (eligibility p) (transfer_date p)
     (status p) (destination_school p) (stats p) (rankings p)
     (composite_ranking p) (profile_urls p) (nil_valuation p)
     (sources p ++ [s]) (last_updated p).
End TransferPlayer.

(** [class AgentMetrics(BaseModel)] *)
Module AgentMetrics.
Record t : Type := mk {
  last_successful_refresh : option string;
  last_refresh_attempt : option string;
  refresh_count : Z;
  error_count : Z;
  player_count : Z;
  average_refresh_time_ms : option float;
  status : AgentStatus
}.

Definition default : t := mk None None 0 0 0 None INACTIVE.
End AgentMetrics.

(** [class PortalQuery(BaseModel)] *)
Module PortalQuery.
Record t : Type := mk {
  position : option string;
  min_ppg : option float;
  school : option string;
  status : option string;
  source : option DataSource;
  limit : option Z;
  min_ranking : option Z;
  max_ranking : option Z
}.

(** The field defaults of the model. *)
Definition default : t :=
  mk None None None None (Some ALL) (Some 20%Z) None None.

Definition with_limit (l : option Z) (q : t) : t :=
  mk (position q) (min_ppg q) (school q) (status q) (source q) l
     (min_ranking q) (max_ranking q).
End PortalQuery.


(* ===================================================================== *)
(** * The orchestrator: record merger                                     *)
(* ===================================================================== *)

Module Orchestrator.
Import Py.

(** [_generate_player_id(name, school)] *)
Definition _generate_player_id (name : string) (school : option string) : string :=
  let normalized_name := remove_spaces (lower name) in
  match school with
  | Some sc =>
      if truthy school
      then normalized_name +:+ "_" +:+ remove_spaces (lower sc)
      else normalized_name
  | None => normalized_name
  end.

(** [sum(rankings.values())] *)
Definition sum_rankings (rankings : gmap DataSource Z) : Z :=
  foldr Z.add 0%Z (map_to_list rankings).*2.

(** [int(sum(rankings.values()) / len(rankings))] *)
Definition composite_of (rankings : gmap DataSource Z) : Z :=
  int_truediv (sum_rankings rankings) (Z.of_nat (size rankings)).

(** [if key in source_player and source_player[key]: per_source[source] = value] *)
Definition record_for (source : DataSource) (value : option string)
    (per_source : gmap DataSource string) : gmap DataSource string :=
  match value with
  | Some v => if truthy value then <[source := v]> per_source else per_source
  | None => per_source
  end.

(** [if key in source_player and source_player[key]: player.field = value] *)
Definition assign (value current : option string) : option string :=
  if truthy value then value else current.

(** The same with a fallback key ([elif]). *)
Definition assign_or (value fallback : option string) (fallback_ok : bool)
    (current : option string) : option string :=
  if truthy value then value
  else if truthy fallback && fallback_ok then fallback
  else current.

(** [PlayerStats(ppg=stats_dict.get("ppg"), ..., source=source)] *)
Definition stats_of (stats_dict : Raw.stats_dict) (source : DataSource) : PlayerStats.t :=
  PlayerStats.mk (Raw.ppg stats_dict) (Raw.rpg stats_dict) (Raw.apg stats_dict)
    (Raw.spg stats_dict) (Raw.bpg stats_dict) (Raw.fg_pct stats_dict)
    (Raw.three_pt_pct stats_dict) (Raw.ft_pct stats_dict) None (Some source).

(** The rankings and composite ranking after the "Update rankings" block. *)
Definition update_rankings (player : TransferPlayer.t) (source_player : Raw.t)
    (source : DataSource) : gmap DataSource Z * option Z :=
  let unchanged :=
    (TransferPlayer.rankings player, TransferPlayer.composite_ranking player) in
  match Raw.rank source_player with
  | Some value =>
      if Raw.rank_truthy (Raw.rank source_player) then
        match Raw.rank_int value with
        | Some rank =>
            let rankings := <[source := rank]> (TransferPlayer.rankings player) in
            (rankings,
             if bool_decide (size rankings = 0%nat)
             then TransferPlayer.composite_ranking player
             else Some (composite_of rankings))
        | None => unchanged          (* except (ValueError, TypeError): pass *)
        end
      else unchanged
  | None => unchanged
  end.

(** [update_basic]: the source is ON3 or no basic field is set yet. *)
Definition update_basic (player : TransferPlayer.t) (source : DataSource) : bool :=
  bool_decide (source = ON3)
  || negb (existsb truthy
             [ TransferPlayer.position player;
               TransferPlayer.height player;
               TransferPlayer.previous_school player;
               TransferPlayer.class_year player;
               TransferPlayer.eligibility player;
               TransferPlayer.status player;
               TransferPlayer.destination_school player ]).

(** [_update_player_from_source(player, source_player, source)]; [now] is
    what [datetime.now().isoformat()] returns during the call. *)
Definition _update_player_from_source (player : TransferPlayer.t)
    (source_player : Raw.t) (source : DataSource) (now : string) : TransferPlayer.t :=
  let last_updated := <[source := now]> (TransferPlayer.last_updated player) in
  let profile_urls :=
    record_for source (Raw.profile_url source_player) (TransferPlayer.profile_urls player) in
  let '(rankings, composite_ranking) := update_rankings player source_player source in
  let stats :=
    match Raw.stats source_player with
    | Some stats_dict => <[source := stats_of stats_dict source]> (TransferPlayer.stats player)
    | None => TransferPlayer.stats player
    end in
  let nil_valuation :=
    record_for source (Raw.nil_valuation source_player) (TransferPlayer.nil_valuation player) in
  let basic := update_basic player source in
  let upd (new : option string -> option string) (current : option string) :=
    if basic then new current else current in
  TransferPlayer.mk
    (TransferPlayer.player_id player)
    (TransferPlayer.name player)
    (upd (assign (Raw.position source_player)) (TransferPlayer.position player))
    (upd (assign (Raw.height source_player)) (TransferPlayer.height player))
    (TransferPlayer.weight player)
    (upd (assign_or (Raw.previous_school source_player) (Raw.last_team source_player) true)
         (TransferPlayer.previous_school player))
    (upd (assign (Raw.class_year source_player)) (TransferPlayer.class_year player))
    (upd (assign (Raw.eligibility source_player)) (TransferPlayer.eligibility player))
    (TransferPlayer.transfer_date player)
    (upd (assign (Raw.status source_player)) (TransferPlayer.status player))
    (upd (assign_or (Raw.destination_school source_player) (Raw.new_team source_player)
            (bool_decide (Raw.new_team source_player <> Some "N/A")))
         (TransferPlayer.destination_school player))
    stats rankings composite_ranking profile_urls nil_valuation
    (TransferPlayer.sources player)
    last_updated.

(* ===================================================================== *)
(** * The orchestrator: state, consolidation and refresh                  *)
(* ===================================================================== *)

(** The fields of [TransferPortalOrchestrator].  An agent is represented
    by its [data_cache]; [agents] keeps the dict's insertion order. *)
Record State : Type := mkState {
  refresh_interval : Z;
  agents : list (DataSource * list Raw.t);
  metrics : gmap DataSource AgentMetrics.t;
  players : list (string * TransferPlayer.t);
  last_consolidation : option float
}.

(** [__init__] *)
Definition init (interval : Z) : State :=
  let agents := [(ON3, []); (RIVALS, []); (TWO47, [])] in
  mkState interval agents
    (list_to_map ((fun a => (a.1, AgentMetrics.default)) <$> agents))
    [] None.

Definition with_metrics (m : gmap DataSource AgentMetrics.t) (st : State) : State :=
  mkState (refresh_interval st) (agents st) m (players st) (last_consolidation st).

Definition with_agents (a : list (DataSource * list Raw.t)) (st : State) : State :=
  mkState (refresh_interval st) a (metrics st) (players st) (last_consolidation st).

(** What one consolidation pass carries through its loops: the store
    ([self.players]), [processed_players], and the number of clock
    readings taken so far. *)
Record Pass : Type := mkPass {
  store : list (string * TransferPlayer.t);
  processed : gset string;
  reads : nat
}.

(** The body of [for player_data in data], for one record with a name. *)
Definition merge_record (clk : nat -> Instant) (source : DataSource)
    (name : string) (player_data : Raw.t) (ps : Pass) : Pass :=
  let player_id := _generate_player_id name (Raw.previous_school player_data) in
  let player :=
    match Alist.lookup player_id (store ps) with
    | None => TransferPlayer.create player_id name [source]
    | Some player =>
        if bool_decide (source ∈ TransferPlayer.sources player) then player
        else TransferPlayer.append_source source player
    end in
  let player :=
    _update_player_from_source player player_data source (isoformat (clk (reads ps))) in
  mkPass (Alist.set player_id player (store ps))
         ({[ player_id ]} ∪ processed ps)
         (S (reads ps)).

(** [for player_data in data: ...] inside the [try]: [player_data["name"]]
    raises [KeyError] on a record without a name, which leaves the loop;
    the handler only logs, so the pass continues from what was merged. *)
Fixpoint merge_records (clk : nat -> Instant) (source : DataSource)
    (data : list Raw.t) (ps : Pass) : Pass :=
  match data with
  | [] => ps
  | player_data :: rest =>
      match Raw.name player_data with
      | None => ps
      | Some name =>
          merge_records clk source rest (merge_record clk source name player_data ps)
      end
  end.

(** [metrics.status not in [READY, RUNNING]] *)
Definition skipped (m : AgentMetrics.t) : bool :=
  negb (bool_decide (AgentMetrics.status m = READY)
        || bool_decide (AgentMetrics.status m = RUNNING)).

(** [for source, agent in self.agents.items(): ...].  [self.metrics[source]]
    is outside the [try]: a missing entry raises [KeyError] out of the pass. *)
Fixpoint consolidate_sources (clk : nat -> Instant)
    (metrics : gmap DataSource AgentMetrics.t)
    (agents : list (DataSource * list Raw.t)) (ps : Pass) : Pass * option exn :=
  match agents with
  | [] => (ps, None)
  | (source, data_cache) :: rest =>
      match metrics !! source with
      | None => (ps, Some KeyError)
      | Some m =>
          if skipped m then consolidate_sources clk metrics rest ps
          else consolidate_sources clk metrics rest
                 (merge_records clk source data_cache ps)
      end
  end.

(** [consolidate_data()]: the new state, and the exception if one escaped. *)
Definition consolidate_data (clk : nat -> Instant) (st : State) : State * option exn :=
  let existing_players : gset string := list_to_set (Alist.keys (players st)) in
  match consolidate_sources clk (metrics st) (agents st)
          (mkPass (players st) ∅ 0) with
  | (ps, Some e) =>
      (mkState (refresh_interval st) (agents st) (metrics st) (store ps)
         (last_consolidation st), Some e)
  | (ps, None) =>
      let removed := existing_players ∖ processed ps in
      (mkState (refresh_interval st) (agents st) (metrics st)
         (foldr Alist.remove (store ps) (elements removed))
         (Some (epoch (clk (reads ps)))), None)
  end.

(** The [except Exception] handler of [refresh_agent]. *)
Definition record_failure (source : DataSource) (st : State) : State :=
  match metrics st !! source with
  | Some m =>
      with_metrics
        (<[source :=
            AgentMetrics.mk
              (AgentMetrics.last_successful_refresh m)
              (AgentMetrics.last_refresh_attempt m)
              (AgentMetrics.refresh_count m)
              (AgentMetrics.error_count m + 1)
              (AgentMetrics.player_count m)
              (AgentMetrics.average_refresh_time_ms m)
              ERROR ]> (metrics st)) st
  | None => st
  end.

(** [refresh_agent], up to [await agent.scrape_players()]: the lookups
    (outside the [try]), then the metrics of the attempt.  Returns the
    state and [start_time]. *)
Definition refresh_begin (clk : nat -> Instant) (source : DataSource) (st : State)
    : result (State * float) :=
  match Alist.lookup source (agents st), metrics st !! source with
  | Some _, Some m =>
      Ok (with_metrics
            (<[source :=
                AgentMetrics.mk
                  (AgentMetrics.last_successful_refresh m)
                  (Some (isoformat (clk 0%nat)))
                  (AgentMetrics.refresh_count m)
                  (AgentMetrics.error_count m)
                  (AgentMetrics.player_count m)
                  (AgentMetrics.average_refresh_time_ms m)
                  RUNNING ]> (metrics st)) st,
          epoch (clk 1%nat))
  | _, _ => Raise KeyError
  end.

(** [refresh_agent], from the point where [scrape_players()] has returned
    [data] or raised: [scraped] is that outcome. *)
Definition refresh_finish (clk : nat -> Instant) (source : DataSource)
    (start_time : float) (scraped : result (list Raw.t)) (st : State) : State * bool :=
  match scraped, metrics st !! source with
  | Ok data, Some m =>
      let end_time := epoch (clk 0%nat) in
      let refresh_time_ms := ((end_time - start_time) * 1000)%float in
      let average :=
        match AgentMetrics.average_refresh_time_ms m with
        | None => refresh_time_ms
        | Some avg => (0.8 * avg + 0.2 * refresh_time_ms)%float
        end in
      let m' :=
        AgentMetrics.mk
          (Some (isoformat (clk 1%nat)))
          (AgentMetrics.last_refresh_attempt m)
          (AgentMetrics.refresh_count m + 1)
          (AgentMetrics.error_count m)
          (Z.of_nat (length data))
          (Some average)
          READY in
      let st := with_metrics (<[source := m']> (metrics st)) st in
      let st := with_agents (Alist.set source data (agents st)) st in
      match consolidate_data (fun i => clk (2 + i)%nat) st with
      | (st, None) => (st, true)
      | (st, Some _) => (record_failure source st, false)
      end
  | _, _ => (record_failure source st, false)
  end.

(** [refresh_agent(source)], run without interleaving: the clock readings
    of the two halves are consecutive. *)
Definition refresh_agent (clk : nat -> Instant) (source : DataSource)
    (scraped : result (list Raw.t)) (st : State) : result (State * bool) :=
  match refresh_begin clk source st with
  | Ok (st, start_time) =>
      Ok (refresh_finish (fun i => clk (2 + i)%nat) source start_time scraped st)
  | Raise e => Raise e
  end.

(* ===================================================================== *)
(** * The orchestrator: query engine                                      *)
(* ===================================================================== *)

(** The first component of the sort key, [-(p.composite_ranking or
    float('inf'))]: the negated ranking, or minus infinity. *)
Inductive rank_key : Type :=
| MinusInf
| Negated (z : Z).

Definition rank_key_of (composite_ranking : option Z) : rank_key :=
  match composite_ranking with
  | Some z => if truthy_int composite_ranking then Negated (- z) else MinusInf
  | None => MinusInf
  end.

Definition rank_key_eqb (a b : rank_key) : bool :=
  match a, b with
  | MinusInf, MinusInf => true
  | Negated x, Negated y => (x =? y)%Z
  | _, _ => false
  end.

Definition rank_key_ltb (a b : rank_key) : bool :=
  match a, b with
  | MinusInf, Negated _ => true
  | Negated x, Negated y => (x <? y)%Z
  | _, _ => false
  end.

(** [key(p) < key(q)] for the key [(-(composite or inf), name)]: tuples
    compare lexicographically. *)
Definition sort_key (p : TransferPlayer.t) : rank_key * string :=
  (rank_key_of (TransferPlayer.composite_ranking p), TransferPlayer.name p).

Definition key_ltb (a b : rank_key * string) : bool :=
  if rank_key_eqb a.1 b.1 then String.ltb a.2 b.2 else rank_key_ltb a.1 b.1.

Definition player_ltb (p q : TransferPlayer.t) : bool :=
  key_ltb (sort_key p) (sort_key q).

(** [value and needle.lower() in value.lower()] *)
Definition matches (needle : string) (value : option string) : bool :=
  match value with
  | Some v => truthy value && contains (lower needle) (lower v)
  | None => false
  end.

(** [value and value >= bound] / [value and value <= bound] on ints. *)
Definition at_least (bound : Z) (value : option Z) : bool :=
  match value with
  | Some v => truthy_int value && (bound <=? v)%Z
  | None => false
  end.

Definition at_most (bound : Z) (value : option Z) : bool :=
  match value with
  | Some v => truthy_int value && (v <=? bound)%Z
  | None => false
  end.

(** [any(stats.ppg and stats.ppg >= min_ppg for stats in p.stats.values())] *)
Definition scores_at_least (min_ppg : float) (p : TransferPlayer.t) : bool :=
  existsb
    (fun stats : PlayerStats.t =>
       match PlayerStats.ppg stats with
       | Some ppg => truthy_float (Some ppg) && PrimFloat.leb min_ppg ppg
       | None => false
       end)
    (map_to_list (TransferPlayer.stats p)).*2.

(** [if cond: players = [p for p in players if keep(p)]] *)
Definition filter_when {A : Type} (cond : bool) (keep : A -> bool) (l : list A) : list A :=
  if cond then List.filter keep l else l.

(** The filtering stage of [query_players]. *)
Definition apply_filters (query : PortalQuery.t) (players : list TransferPlayer.t)
    : list TransferPlayer.t :=
  let players :=
    filter_when (negb (bool_decide (PortalQuery.source query = Some ALL)))
      (fun p => match PortalQuery.source query with
                | Some s => bool_decide (s ∈ TransferPlayer.sources p)
                | None => false
                end) players in
  let players :=
    match PortalQuery.position query with
    | Some position =>
        filter_when (truthy (Some position))
          (fun p => matches position (TransferPlayer.position p)) players
    | None => players
    end in
  let players :=
    match PortalQuery.school query with
    | Some school =>
        filter_when (truthy (Some school))
          (fun p => matches school (TransferPlayer.previous_school p)
                    || matches school (TransferPlayer.destination_school p)) players
    | None => players
    end in
  let players :=
    match PortalQuery.status query with
    | Some status =>
        filter_when (truthy (Some status))
          (fun p => matches status (TransferPlayer.status p)) players
    | None => players
    end in
  let players :=
    match PortalQuery.min_ppg query with
    | Some min_ppg => List.filter (scores_at_least min_ppg) players
    | None => players
    end in
  let players :=
    match PortalQuery.min_ranking query with
    | Some min_ranking =>
        List.filter (fun p => at_least min_ranking (TransferPlayer.composite_ranking p)) players
    | None => players
    end in
  match PortalQuery.max_ranking query with
  | Some max_ranking =>
      List.filter (fun p => at_most max_ranking (TransferPlayer.composite_ranking p)) players
  | None => players
  end.

(** [query_players(query)] *)
Definition query_players (st : State) (query : PortalQuery.t) : list TransferPlayer.t :=
  match players st with
  | [] => []
  | _ =>
      let players := Alist.values (players st) in
      let players := apply_filters query players in
      let players := sort player_ltb players in
      match PortalQuery.limit query with
      | Some limit =>
          if truthy_int (Some limit) then slice_to limit players else players
      | None => players
      end
  end.

End Orchestrator.

(* ===================================================================== *)
(** * The news monitor: cross-source post-processing                      *)
(* ===================================================================== *)

Module NewsMonitor.
Import Py.

(** [class NewsSource(str, Enum)] *)
Inductive NewsSource : Type :=
| ESPN | CBS_SPORTS | ATHLETIC | RIVALS | TWO47SPORTS | ON3
| STADIUM | FIELD_OF_68 | SPORTS_ILLUSTRATED.

(** [class SocialPlatform(str, Enum)] *)
Inductive SocialPlatform : Type :=
| TWITTER | INSTAGRAM | THREADS | TIKTOK | YOUTUBE.

(** [class TransferEventType(str, Enum)] *)
Inductive TransferEventType : Type :=
| PORTAL_ENTRY | COMMITMENT | VISIT_SCHEDULED | VISIT_COMPLETED | FINAL_LIST
| COACH_CHANGE | NIL_RELATED | ACADEMIC_RELATED | PLAYING_TIME | FAMILY_RELATED
| GRADUATION_TRANSFER | MEDICAL_RELATED | DECOMMITMENT.

(** [class TransferNewsItem(BaseModel)] *)
Record TransferNewsItem : Type := mkItem {
  id : string;
  player_name : string;
  source_type : NewsSource + SocialPlatform;
  source_name : string;
  source_url : string;
  title : option string;
  content_snippet : option string;
  publication_date : string;
  event_types : list TransferEventType;
  previous_school : option string;
  destination_school : option string;
  mentioned_schools : list string;
  confidence_score : float;
  extracted_quotes : list string;
  verified : bool;
  keywords : list string
}.

(** [item.verified = v; item.confidence_score = c] *)
Definition with_score (v : bool) (c : float) (item : TransferNewsItem) : TransferNewsItem :=
  mkItem (id item) (player_name item) (source_type item) (source_name item)
    (source_url item) (title item) (content_snippet item) (publication_date item)
    (event_types item) (previous_school item) (destination_school item)
    (mentioned_schools item) c (extracted_quotes item) v (keywords item).

(** The news store [self.news_items], and the items of it a list holds:
    an item is carried with its key, which identifies the object. *)
Abbreviation store := (list (string * TransferNewsItem)).

(** The first loop: [player_events[item.player_name].append(item)]. *)
Fixpoint group_by_player (items : store) (player_events : list (string * store))
    : list (string * store) :=
  match items with
  | [] => player_events
  | entry :: rest =>
      let name := player_name entry.2 in
      let current := default [] (Alist.lookup name player_events) in
      group_by_player rest (Alist.set name (current ++ [entry]) player_events)
  end.

(** [items.sort(key=lambda x: x.publication_date, reverse=True)] *)
Definition newer (a b : string * TransferNewsItem) : bool :=
  String.ltb (publication_date b.2) (publication_date a.2).

(** [counts[school] = counts.get(school, 0) + 1] over the items that have
    the field. *)
Fixpoint count_schools (field : TransferNewsItem -> option string) (items : store)
    (counts : list (string * Z)) : list (string * Z) :=
  match items with
  | [] => counts
  | entry :: rest =>
      match field entry.2 with
      | Some school =>
          if truthy (Some school)
          then count_schools field rest
                 (Alist.set school (default 0%Z (Alist.lookup school counts) + 1)%Z counts)
          else count_schools field rest counts
      | None => count_schools field rest counts
      end
  end.

(** [max(counts.items(), key=lambda x: x[1])]: the first entry with the
    largest count. *)
Fixpoint max_count (best : string * Z) (entries : list (string * Z)) : string * Z :=
  match entries with
  | [] => best
  | entry :: rest => max_count (if (best.2 <? entry.2)%Z then entry else best) rest
  end.

(** [max(counts.items(), key=lambda x: x[1])[0] if counts else None] *)
Definition most_common (counts : list (string * Z)) : option string :=
  match counts with
  | [] => None
  | entry :: rest => Some (max_count entry rest).1
  end.

(** [item.field == most_common if most_common else False] *)
Definition consistent (value most_common : option string) : bool :=
  if truthy most_common then bool_decide (value = most_common) else false.

(** [most_common and item.field and item.field != most_common] *)
Definition conflicting (value most_common : option string) : bool :=
  truthy most_common && truthy value && bool_decide (value <> most_common).

(** The body of the last loop, for one item of a group of [n] items. *)
Definition adjust (n : nat) (most_common_prev most_common_dest : option string)
    (item : TransferNewsItem) : TransferNewsItem :=
  let item :=
    if consistent (previous_school item) most_common_prev
       && consistent (destination_school item) most_common_dest
       && (3 <=? n)%nat
    then with_score true (min 1.0 (confidence_score item + 0.1)) item
    else item in
  if conflicting (previous_school item) most_common_prev
     || conflicting (destination_school item) most_common_dest
  then with_score (verified item) (max 0.3 (confidence_score item - 0.2)) item
  else item.

(** The body of [for player_name, items in player_events.items()]. *)
Definition reconcile (items : store) : store :=
  if (1 <? length items)%nat then
    let items := sort newer items in
    let most_common_prev := most_common (count_schools previous_school items []) in
    let most_common_dest := most_common (count_schools destination_school items []) in
    (fun entry => (entry.1, adjust (length items) most_common_prev most_common_dest entry.2))
      <$> items
  else items.

(** [_post_process_news_items()]: the store after the items were updated
    in place. *)
Definition _post_process_news_items (news_items : store) : store :=
  let player_events := group_by_player news_items [] in
  let updated := concat (reconcile <$> Alist.values player_events) in
  (fun entry => (entry.1, default entry.2 (Alist.lookup entry.1 updated))) <$> news_items.

End NewsMonitor.

(* ===================================================================== *)
(** * Vocabulary of the properties                                        *)
(* ===================================================================== *)

Module Spec.
Import Orchestrator.

(** The scalar descriptive fields of a consolidated player. *)
Inductive scalar_field : Type :=
| Position | Height | PreviousSchool | ClassYear | Eligibility | Status
| DestinationSchool.

(** The field's current value in the consolidated record. *)
Definition current (f : scalar_field) (p : TransferPlayer.t) : option string :=
  match f with
  | Position => TransferPlayer.position p
  | Height => TransferPlayer.height p
  | PreviousSchool => TransferPlayer.previous_school p
  | ClassYear => TransferPlayer.class_year p
  | Eligibility => TransferPlayer.eligibility p
  | Status => TransferPlayer.status p
  | DestinationSchool => TransferPlayer.destination_school p
  end.

(** The value a raw record supplies for the field, if any: the previous
    school falls back on ["last_team"], the destination school on
    ["new_team"] unless that is ["N/A"]. *)
Definition supplied (f : scalar_field) (r : Raw.t) : option string :=
  let pick (o : option string) := if Py.truthy o then o else None in
  match f with
  | Position => pick (Raw.position r)
  | Height => pick (Raw.height r)
  | PreviousSchool =>
      if Py.truthy (Raw.previous_school r) then Raw.previous_school r
      else pick (Raw.last_team r)
  | ClassYear => pick (Raw.class_year r)
  | Eligibility => pick (Raw.eligibility r)
  | Status => pick (Raw.status r)
  | DestinationSchool =>
      if Py.truthy (Raw.destination_school r) then Raw.destination_school r
      else if bool_decide (Raw.new_team r = Some "N/A") then None
      else pick (Raw.new_team r)
  end.

(** A field has a value when it is neither [None] nor empty. *)
Definition is_set (o : option string) : Prop := Py.truthy o = true.

(** The rank a raw record carries, when the merger records one. *)
Definition recorded_rank (r : Raw.t) : option Z :=
  if Raw.rank_truthy (Raw.rank r) then Raw.rank r ≫= Raw.rank_int else None.


(** [player.last_updated = m], nothing else changed. *)
Definition with_last_updated (m : gmap DataSource string) (p : TransferPlayer.t)
    : TransferPlayer.t :=
  TransferPlayer.mk
    (TransferPlayer.player_id p) (TransferPlayer.name p) (TransferPlayer.position p)
    (TransferPlayer.height p) (TransferPlayer.weight p)
    (TransferPlayer.previous_school p) (TransferPlayer.class_year p)
    (TransferPlayer.eligibility p) (TransferPlayer.transfer_date p)
    (TransferPlayer.status p) (TransferPlayer.destination_school p)
    (TransferPlayer.stats p) (TransferPlayer.rankings p)
    (TransferPlayer.composite_ranking p) (TransferPlayer.profile_urls p)
    (TransferPlayer.nil_valuation p) (TransferPlayer.sources p) m.

(** The players a query selects, in the order of the result, before any
    limit applies. *)
Definition selected (st : State) (query : PortalQuery.t) : list TransferPlayer.t :=
  Py.sort player_ltb (apply_filters query (Alist.values (players st))).

(** The agent table is a dict (no key twice) and every agent has its
    metrics entry, as [__init__] sets them up. *)
Definition configured (st : State) : Prop :=
  NoDup (Alist.keys (agents st))
  /\ forall s, s ∈ Alist.keys (agents st) -> is_Some (metrics st !! s).

(** The state a call leaves behind ([st] itself if the call raised). *)
Definition after (st : State) (outcome : Py.result (State * bool)) : State :=
  match outcome with
  | Py.Ok (st', _) => st'
  | Py.Raise _ => st
  end.

(** The identity a raw record resolves to, if it has a name. *)
Definition identity (r : Raw.t) : option string :=
  (fun name => _generate_player_id name (Raw.previous_school r)) <$> Raw.name r.

(** The records of a batch in front of its first record without a name. *)
Fixpoint named_prefix (data : list Raw.t) : list Raw.t :=
  match data with
  | [] => []
  | r :: rest =>
      match Raw.name r with
      | Some _ => r :: named_prefix rest
      | None => []
      end
  end.





(** The metrics entry of a source after a refresh that started at the
    first reading of [clk] and whose scrape raised. *)
Definition failed_metrics (clk : nat -> Instant) (m : AgentMetrics.t) : AgentMetrics.t :=
  AgentMetrics.mk
    (AgentMetrics.last_successful_refresh m)
    (Some (isoformat (clk 0%nat)))
    (AgentMetrics.refresh_count m)
    (AgentMetrics.error_count m + 1)
    (AgentMetrics.player_count m)
    (AgentMetrics.average_refresh_time_ms m)
    ERROR.

(** The same after a scrape that returned [data]. *)
Definition succeeded_metrics (clk : nat -> Instant) (data : list Raw.t)
    (m : AgentMetrics.t) : AgentMetrics.t :=
  let refresh_time_ms := ((epoch (clk 2%nat) - epoch (clk 1%nat)) * 1000)%float in
  AgentMetrics.mk
    (Some (isoformat (clk 3%nat)))
    (Some (isoformat (clk 0%nat)))
    (AgentMetrics.refresh_count m + 1)
    (AgentMetrics.error_count m)
    (Z.of_nat (length data))
    (Some match AgentMetrics.average_refresh_time_ms m with
          | None => refresh_time_ms
          | Some avg => (0.8 * avg + 0.2 * refresh_time_ms)%float
          end)
    READY.

(** The state of the orchestrator when source [s] has failed ... *)
Definition failed_state (clk : nat -> Instant) (s : DataSource) (m : AgentMetrics.t)
    (st : State) : State :=
  with_metrics (<[s := failed_metrics clk m]> (metrics st)) st.

(** ... and when [s] has delivered [data], before the consolidation pass. *)
Definition fetched_state (clk : nat -> Instant) (s : DataSource) (data : list Raw.t)
    (m : AgentMetrics.t) (st : State) : State :=
  with_agents (Alist.set s data (agents st))
    (with_metrics (<[s := succeeded_metrics clk data m]> (metrics st)) st).

(** The query that selects everything: no filter, no limit. *)
Definition query_all : PortalQuery.t :=
  PortalQuery.mk None None None None (Some ALL) None None None.



(** A player without a usable composite ranking ([None] or 0). *)
Definition unranked (p : TransferPlayer.t) : Prop :=
  Py.truthy_int (TransferPlayer.composite_ranking p) = false.

(** A list in which the unranked players come first. *)
Definition unranked_first (l : list TransferPlayer.t) : Prop :=
  exists us rs, l = us ++ rs /\ Forall unranked us /\ Forall (fun p => ~ unranked p) rs.


(** Merging the same record from the same source a second time leaves the
    consolidated player identical, field for field. *)
Definition merge_twice_identical : Prop :=
  forall (p : TransferPlayer.t) (r : Raw.t) (s : DataSource) (t1 t2 : string),
    _update_player_from_source (_update_player_from_source p r s t1) r s t2
    = _update_player_from_source p r s t1.

End Spec.

(* ===================================================================== *)
(** * Concrete players, records and states                                *)
(* ===================================================================== *)

Module Examples.
Import Orchestrator.

(** A raw record with a name and a rank. *)
Definition ranked (n : string) (rank : Z) : Raw.t :=
  Raw.mk (Some n) None None None None None None None None None None
    (Some (Raw.RankInt rank)) None None.

(** A raw record with a name and a position. *)
Definition positioned (n position : string) : Raw.t :=
  Raw.mk (Some n) None None (Some position) None None None None None None None
    None None None.


Definition john : TransferPlayer.t :=
  TransferPlayer.create "johnsmith" "John Smith" [ON3].

(** John Smith once ON3 reported him as a guard. *)
Definition john_guard : TransferPlayer.t :=
  _update_player_from_source john (positioned "John Smith" "G") ON3
    "2024-04-01T10:00:00".


(** A clock on which every reading is the same instant. *)
Definition frozen_clock : nat -> Instant :=
  fun _ => mkInstant "2024-04-01T10:00:00" 1711965600.

(** ON3 reports Zed without a rank (the agent's rank for a missing cell is
    0), Amy ranked 10 and Bo ranked 3. *)
Definition on3_page : list Raw.t :=
  [ranked "Zed" 0; ranked "Amy" 10; ranked "Bo" 3].

Definition three_players : State :=
  Spec.after (init 3600)
    (refresh_agent frozen_clock ON3 (Py.Ok on3_page) (init 3600)).



(** ON3 contributed Amy, then Rivals contributed Bo. *)
Definition amy_and_bo : State :=
  let st := Spec.after (init 3600)
              (refresh_agent frozen_clock ON3 (Py.Ok [ranked "Amy" 10]) (init 3600)) in
  Spec.after st (refresh_agent frozen_clock RIVALS (Py.Ok [ranked "Bo" 3]) st).

(** From there, ON3's refresh fails and Rivals' next refresh succeeds. *)
Definition on3_failed_rivals_succeeded : State :=
  let st := Spec.after amy_and_bo
              (refresh_agent frozen_clock ON3 (Py.Raise Py.ScrapeError) amy_and_bo) in
  Spec.after st (refresh_agent frozen_clock RIVALS (Py.Ok [ranked "Bo" 3]) st).

End Examples.

(* ===================================================================== *)
(** * Vocabulary of the news post-processing properties                   *)
(* ===================================================================== *)

Module NewsSpec.
Import NewsMonitor.

(** The signals the store holds about one player. *)
Definition signals (news : store) (player : string) : store :=
  filter (fun entry => player_name entry.2 = player) news.

(** The value of a school field that most signals about the player carry
    (the newest signal's value among equally frequent ones). *)
Definition majority (field : TransferNewsItem -> option string) (news : store)
    (player : string) : option string :=
  most_common (count_schools field (Py.sort newer (signals news player)) []).

(** The number of signals that carry [school] in a field. *)
Definition occurrences (field : TransferNewsItem -> option string) (school : string)
    (items : store) : nat :=
  length (filter (fun entry => field entry.2 = Some school) items).

(** The signal carries the majority value on both school fields. *)
Definition agrees (news : store) (item : TransferNewsItem) : Prop :=
  (exists school, majority previous_school news (player_name item) = Some school
                  /\ previous_school item = Some school)
  /\ (exists school, majority destination_school news (player_name item) = Some school
                     /\ destination_school item = Some school).

(** The signal carries a value other than the majority on a school field. *)
Definition differs (field : TransferNewsItem -> option string) (news : store)
    (item : TransferNewsItem) : Prop :=
  exists school value,
    majority field news (player_name item) = Some school
    /\ field item = Some value /\ value <> "" /\ value <> school.

Definition disagrees (news : store) (item : TransferNewsItem) : Prop :=
  differs previous_school news item \/ differs destination_school news item.

(** With fewer than three signals about a player, post-processing leaves
    each of them as it was. *)
Definition untouched_below_three : Prop :=
  forall (news : store) (key : string) (item : TransferNewsItem),
    NoDup (Alist.keys news) ->
    (key, item) ∈ news ->
    (length (signals news (player_name item)) < 3)%nat ->
    Alist.lookup key (_post_process_news_items news) = Some item.

(** A signal about John Smith. *)
Definition signal (key date : string) (previous destination : option string)
    (confidence : float) : string * TransferNewsItem :=
  (key,
   mkItem key "John Smith" (inl ESPN) "ESPN" ("https://espn.com/" +:+ key)
     None None date [COMMITMENT] previous destination [] confidence [] false []).

(** Two signals that name different destinations. *)
Definition two_signals : store :=
  [ signal "n1" "2024-04-02T09:00:00" None (Some "Duke") 0.8;
    signal "n2" "2024-04-01T09:00:00" None (Some "Kentucky") 0.8 ].

(** Three signals from North Carolina: two to Duke, one to Kentucky. *)
Definition three_signals : store :=
  [ signal "n1" "2024-04-03T09:00:00" (Some "North Carolina") (Some "Duke") 0.8;
    signal "n2" "2024-04-02T09:00:00" (Some "North Carolina") (Some "Kentucky") 0.8;
    signal "n3" "2024-04-01T09:00:00" (Some "North Carolina") (Some "Duke") 0.95 ].

End NewsSpec.

(* ===================================================================== *)
(** * The orchestrator: derived views and the read endpoints              *)
(* ===================================================================== *)

Module Api.
Import Py Orchestrator.



(** What an endpoint answers: a body, or [HTTPException(status_code)]. *)
Inductive response (A : Type) : Type :=
| Body (a : A)
| HTTPException (status_code : Z).
Arguments Body {A} a.
Arguments HTTPException {A} status_code.


(** [GET /portal/players]: the timestamp, the count and the players. *)
Definition get_players (st : State)
    : response (option float * Z * list TransferPlayer.t) :=
  match players st with
  | [] => HTTPException 404
  | _ =>
      Body (last_consolidation st, Z.of_nat (length (players st)),
            Alist.values (players st))
  end.

End Api.

(** Vocabulary for the states of the orchestrator. *)
Module StoreSpec.
Import Orchestrator Spec.

(** The store is keyed by identity: no key twice, every player stored
    under its own [player_id], and no source listed twice for a player. *)
Definition well_keyed (store : list (string * TransferPlayer.t)) : Prop :=
  NoDup (Alist.keys store)
  /\ forall k p, (k, p) ∈ store ->
       TransferPlayer.player_id p = k /\ NoDup (TransferPlayer.sources p).

(** The states the orchestrator goes through: its initial state, and the
    state after any refresh cycle of any source with any outcome. *)
Inductive reachable : State -> Prop :=
| reachable_init (interval : Z) : reachable (init interval)
| reachable_refresh (st : State) (clk : nat -> Instant) (s : DataSource)
    (scraped : Py.result (list Raw.t)) :
    reachable st -> reachable (after st (refresh_agent clk s scraped st)).


(** A player passes every filter of the query. *)
Definition passes (query : PortalQuery.t) (p : TransferPlayer.t) : Prop :=
  (PortalQuery.source query = Some ALL
   \/ exists s, PortalQuery.source query = Some s /\ s ∈ TransferPlayer.sources p)
  /\ (forall v, PortalQuery.position query = Some v -> v <> "" ->
        matches v (TransferPlayer.position p) = true)
  /\ (forall v, PortalQuery.school query = Some v -> v <> "" ->
        matches v (TransferPlayer.previous_school p) = true
        \/ matches v (TransferPlayer.destination_school p) = true)
  /\ (forall v, PortalQuery.status query = Some v -> v <> "" ->
        matches v (TransferPlayer.status p) = true)
  /\ (forall v, PortalQuery.min_ppg query = Some v -> scores_at_least v p = true)
  /\ (forall lo, PortalQuery.min_ranking query = Some lo ->
        exists c, TransferPlayer.composite_ranking p = Some c
                  /\ c <> 0%Z /\ (lo <= c)%Z)
  /\ (forall hi, PortalQuery.max_ranking query = Some hi ->
        exists c, TransferPlayer.composite_ranking p = Some c
                  /\ c <> 0%Z /\ (c <= hi)%Z).


(** The order of the query result: [p] may stand in front of [q]. *)
Definition may_precede (p q : TransferPlayer.t) : Prop :=
  player_ltb q p = false.

End StoreSpec.

(* ===================================================================== *)
(** * The news-enriched orchestrator                                      *)
(* ===================================================================== *)

(** [NewsEnrichedOrchestrator._integrate_news_data], of
    [news_monitor_integration.py].  The store of players is the
    orchestrator's, the store of news the news agent's. *)
Module NewsIntegration.
Import Py Orchestrator NewsMonitor.

#[global] Instance TransferEventType_eq_dec : EqDecision TransferEventType.
Proof. solve_decision. Defined.

(** [event in item.event_types] *)
Definition has_event (event : TransferEventType) (item : TransferNewsItem) : bool :=
  bool_decide (event ∈ event_types item).

(** [player.previous_school = v] and [player.destination_school = v] *)
Definition with_previous_school (v : option string) (p : TransferPlayer.t)
    : TransferPlayer.t :=
  TransferPlayer.mk (TransferPlayer.player_id p) (TransferPlayer.name p)
    (TransferPlayer.position p) (TransferPlayer.height p) (TransferPlayer.weight p)
    v (TransferPlayer.class_year p) (TransferPlayer.eligibility p)
    (TransferPlayer.transfer_date p) (TransferPlayer.status p)
    (TransferPlayer.destination_school p) (TransferPlayer.stats p)
    (TransferPlayer.rankings p) (TransferPlayer.composite_ranking p)
    (TransferPlayer.profile_urls p) (TransferPlayer.nil_valuation p)
    (TransferPlayer.sources p) (TransferPlayer.last_updated p).

Definition with_destination_school (v : option string) (p : TransferPlayer.t)
    : TransferPlayer.t :=
  TransferPlayer.mk (TransferPlayer.player_id p) (TransferPlayer.name p)
    (TransferPlayer.position p) (TransferPlayer.height p) (TransferPlayer.weight p)
    (TransferPlayer.previous_school p) (TransferPlayer.class_year p)
    (TransferPlayer.eligibility p) (TransferPlayer.transfer_date p)
    (TransferPlayer.status p) v (TransferPlayer.stats p)
    (TransferPlayer.rankings p) (TransferPlayer.composite_ranking p)
    (TransferPlayer.profile_urls p) (TransferPlayer.nil_valuation p)
    (TransferPlayer.sources p) (TransferPlayer.last_updated p).

(** The body of [for item in news_items], for one item. *)
Definition enrich (player : TransferPlayer.t) (item : TransferNewsItem)
    : TransferPlayer.t :=
  if has_event COMMITMENT item || has_event PORTAL_ENTRY item then
    let player :=
      if PrimFloat.leb 0.7 (confidence_score item)
         && negb (truthy (TransferPlayer.destination_school player))
         && truthy (destination_school item)
      then with_destination_school (destination_school item) player
      else player in
    if negb (truthy (TransferPlayer.previous_school player))
       && truthy (previous_school item)
    then with_previous_school (previous_school item) player
    else player
  else player.

(** The first loop, [for player_id, player in list(self.players.items())].
    [found i name] is what the [i]-th call,
    [self.news_agent.query_news_items(player_name=name, limit=0)],
    returns or raises: that query parses the publication dates against
    the clock and is not modelled.  The players are updated in place, so
    those in front of a raising call keep their updates. *)
Fixpoint enrich_players (found : nat -> string -> result (list TransferNewsItem))
    (i : nat) (players : list (string * TransferPlayer.t))
    : list (string * TransferPlayer.t) * option exn :=
  match players with
  | [] => ([], None)
  | (player_id, player) :: rest =>
      match found i (TransferPlayer.name player) with
      | Ok news_items =>
          let '(rest, e) := enrich_players found (S i) rest in
          ((player_id, foldl enrich player news_items) :: rest, e)
      | Raise e => ((player_id, player) :: rest, Some e)
      end
  end.

(** [portal_items.sort(key=lambda x: x.confidence_score, reverse=True)]:
    [a] sorts in front of [b] when its confidence is greater (a list of
    comparable confidences, as a sort of floats requires). *)
Definition more_confident (a b : TransferNewsItem) : bool :=
  PrimFloat.ltb (confidence_score b) (confidence_score a).

(** [TransferPlayer(player_id=..., name=..., previous_school=...,
    destination_school=..., sources=[DataSource.ALL], status="in portal")] *)
Definition news_player (player_id : string) (best_item : TransferNewsItem)
    : TransferPlayer.t :=
  TransferPlayer.mk player_id (player_name best_item) None None None
    (previous_school best_item) None None None (Some "in portal")
    (destination_school best_item) ∅ ∅ None ∅ ∅ [ALL] ∅.

(** The body of [for player_name, items in player_news.items()]. *)
Definition add_from_news (players : list (string * TransferPlayer.t))
    (group : string * NewsMonitor.store) : list (string * TransferPlayer.t) :=
  let player_exists :=
    existsb (fun p => String.eqb (TransferPlayer.name p) group.1)
      (Alist.values players) in
  if player_exists then players
  else
    let portal_items := List.filter (has_event PORTAL_ENTRY) group.2.*2 in
    match sort more_confident portal_items with
    | [] => players
    | best_item :: _ =>
        if PrimFloat.leb 0.8 (confidence_score best_item) then
          let player_id :=
            _generate_player_id (player_name best_item) (previous_school best_item) in
          Alist.set player_id (news_player player_id best_item) players
        else players
    end.

(** [_integrate_news_data()]: the store of players it leaves, and the
    exception it raises, if any. *)
Definition _integrate_news_data (found : nat -> string -> result (list TransferNewsItem))
    (news_items : NewsMonitor.store) (players : list (string * TransferPlayer.t))
    : list (string * TransferPlayer.t) * option exn :=
  match enrich_players found 0 players with
  | (players, Some e) => (players, Some e)
  | (players, None) =>
      (foldl add_from_news players (group_by_player news_items []), None)
  end.

(** ** Vocabulary *)

(** The item reports a commitment or a portal entry. *)
Definition reports_move (item : TransferNewsItem) : Prop :=
  COMMITMENT ∈ event_types item \/ PORTAL_ENTRY ∈ event_types item.

(** Some query of the first loop, made for [name], returned [item]. *)
Definition reported (found : nat -> string -> result (list TransferNewsItem))
    (name : string) (item : TransferNewsItem) : Prop :=
  exists (i : nat) (news_items : list TransferNewsItem),
    found i name = Ok news_items /\ item ∈ news_items.

(** [p'] is [p] with gaps in its two schools filled from news: nothing
    else differs, a school that was set is kept, and a school that was
    filled comes from a reported move (of confidence 0.7 or more, for the
    destination). *)
Definition gaps_filled (found : nat -> string -> result (list TransferNewsItem))
    (p p' : TransferPlayer.t) : Prop :=
  p' = with_previous_school (TransferPlayer.previous_school p')
         (with_destination_school (TransferPlayer.destination_school p') p)
  /\ (truthy (TransferPlayer.previous_school p) = true ->
      TransferPlayer.previous_school p' = TransferPlayer.previous_school p)
  /\ (truthy (TransferPlayer.destination_school p) = true ->
      TransferPlayer.destination_school p' = TransferPlayer.destination_school p)
  /\ (TransferPlayer.previous_school p' <> TransferPlayer.previous_school p ->
      exists item, reported found (TransferPlayer.name p) item /\ reports_move item
        /\ truthy (previous_school item) = true
        /\ TransferPlayer.previous_school p' = previous_school item)
  /\ (TransferPlayer.destination_school p' <> TransferPlayer.destination_school p ->
      exists item, reported found (TransferPlayer.name p) item /\ reports_move item
        /\ PrimFloat.leb 0.7 (confidence_score item) = true
        /\ truthy (destination_school item) = true
        /\ TransferPlayer.destination_school p' = destination_school item).

(** [p'] was created under [k] from a news item that reports a portal
    entry with a confidence of 0.8 or more. *)
Definition created_from_news (news_items : NewsMonitor.store) (k : string)
    (p' : TransferPlayer.t) : Prop :=
  exists key item,
    (key, item) ∈ news_items
    /\ PORTAL_ENTRY ∈ event_types item
    /\ PrimFloat.leb 0.8 (confidence_score item) = true
    /\ k = _generate_player_id (player_name item) (previous_school item)
    /\ p' = news_player k item.



End NewsIntegration.

(* ===================================================================== *)
(** * The scraping agents: from a row of a page to a raw record           *)
(* ===================================================================== *)

(** The part of [scrape_players] of the three agents that turns the cells
    of one row into a raw record, and [BaseTransferPortalAgent._parse_rank].
    The browser session around it is input and output only. *)
Module Agents.
Import Py.

(** [text.strip()] on a [str]. *)
Definition str_strip (s : string) : string :=
  string_of_list_ascii (strip (list_ascii_of_string s)).

(** [s[n:]] *)
Fixpoint skip (n : nat) (s : string) : string :=
  match n, s with
  | S n', String _ s' => skip n' s'
  | _, _ => s
  end.

(** [s.replace(old, new)] for a non-empty [old]: the occurrences are
    replaced from left to right, without overlap. *)
Fixpoint replace_within (fuel : nat) (old new s : string) : string :=
  match fuel with
  | O => s
  | S fuel' =>
      match s with
      | EmptyString => EmptyString
      | String a s' =>
          if String.prefix old s
          then new +:+ replace_within fuel' old new (skip (String.length old) s)
          else String a (replace_within fuel' old new s')
      end
  end.

Definition replace (old new s : string) : string :=
  replace_within (String.length s) old new s.

(** [_parse_rank(text, player_name)]; the name is only logged. *)
Definition _parse_rank (text : string) : Z :=
  if truthy (Some text) && negb (String.eqb text "N/A") then
    match int_of_string (str_strip text) with
    | Some rank => rank
    | None => 0%Z                       (* except ValueError: return 0 *)
    end
  else 0%Z.

(** One row of a page: the text of the cell each selector finds, [None]
    when it finds no element; [link_href] is the [href] of the profile
    link, [None] without a link and [Some None] without the attribute.
    A row one of whose calls raises builds no record: the loop logs the
    error and goes on with the next row.  The rating and NIL cells only
    feed the keys ["rating"] and ["nil_value"], which the orchestrator
    never reads. *)
Record Row : Type := mkRow {
  rank_cell : option string;
  name_cell : option string;
  position_cell : option string;
  status_cell : option string;
  last_team_cell : option string;      (* Rivals: the origin cell *)
  new_team_cell : option string;       (* no such cell on a Rivals page *)
  link_href : option (option string)
}.

(** [await cell.text_content() if cell else "N/A"] *)
Definition cell_text (cell : option string) : string := default "N/A" cell.

(** The profile URL: a relative [href] is put behind the site's base. *)
Definition profile_url_of (base : string) (link : option (option string))
    : option string :=
  match link with
  | Some (Some href) =>
      if truthy (Some href) && negb (String.prefix "http" href)
      then Some (base +:+ href)
      else Some href
  | _ => None
  end.

(** [player_info] of [On3TransferPortalAgent.scrape_players], as the
    orchestrator reads it. *)
Definition on3_record (row : Row) : Raw.t :=
  Raw.mk (Some (str_strip (cell_text (name_cell row))))
    None
    (Some (str_strip (cell_text (last_team_cell row))))
    (Some (str_strip (cell_text (position_cell row))))
    None None None
    (Some (str_strip (cell_text (status_cell row))))
    None
    (Some (str_strip (cell_text (new_team_cell row))))
    (profile_url_of "https://www.on3.com" (link_href row))
    (Some (Raw.RankInt (_parse_rank (cell_text (rank_cell row)))))
    None None.

(** [player_info] of [Sports247TransferPortalAgent.scrape_players]. *)
Definition sports247_record (row : Row) : Raw.t :=
  Raw.mk (Some (str_strip (cell_text (name_cell row))))
    None
    (Some (str_strip (cell_text (last_team_cell row))))
    (Some (str_strip (cell_text (position_cell row))))
    None None None
    (Some (str_strip (cell_text (status_cell row))))
    None
    (Some (str_strip (cell_text (new_team_cell row))))
    (profile_url_of "https://247sports.com" (link_href row))
    (Some (Raw.RankInt (_parse_rank (cell_text (rank_cell row)))))
    None None.

(** [player_info] of [RivalsTransferPortalAgent.scrape_players]: the new
    team is read off the status. *)
Definition rivals_record (row : Row) : Raw.t :=
  let status_text := cell_text (status_cell row) in
  let new_team :=
    if contains "TRANSFERRED TO" status_text
    then Some (str_strip (replace "TRANSFERRED TO" "" status_text))
    else None in
  Raw.mk (Some (str_strip (cell_text (name_cell row))))
    None
    (Some (str_strip (cell_text (last_team_cell row))))
    (Some (str_strip (cell_text (position_cell row))))
    None None None
    (Some (str_strip status_text))
    None
    new_team
    (profile_url_of "https://n.rivals.com" (link_href row))
    (Some (Raw.RankInt (_parse_rank (cell_text (rank_cell row)))))
    None None.

(** A row of which only the name and the rank cell were found. *)
Definition bare_row (name rank : string) : Row :=
  mkRow (Some rank) (Some name) None None None None None.

End Agents.

(* ===================================================================== *)
(** * The news monitor: extraction from text                              *)
(* ===================================================================== *)

(** [_extract_school_mentions] and [_detect_event_types] of
    [NewsAndSocialMonitorAgent]. *)
Module NewsExtraction.
Import Py NewsMonitor.

(** [_load_school_aliases()], in the order of the dict. *)
Definition school_aliases : list (string * list string) :=
  [ ("North Carolina", ["UNC"; "Tar Heels"; "Carolina"]);
    ("Duke", ["Blue Devils"]);
    ("Kentucky", ["UK"; "Wildcats"; "BBN"]);
    ("Kansas", ["Jayhawks"; "KU"]);
    ("UCLA", ["Bruins"]);
    ("Indiana", ["Hoosiers"; "IU"]);
    ("Michigan State", ["MSU"; "Spartans"]);
    ("Arizona", ["Wildcats"; "U of A"]);
    ("Gonzaga", ["Zags"; "Bulldogs"]) ].

Definition school_names : list string :=
  [ "Duke"; "North Carolina"; "Kentucky"; "Kansas"; "UCLA"; "Gonzaga";
    "Michigan State"; "Villanova"; "Arizona"; "Indiana"; "Georgetown";
    "Louisville"; "Connecticut"; "Syracuse"; "Ohio State"; "Michigan";
    "Florida"; "Wisconsin"; "Purdue"; "Illinois"; "Alabama"; "Auburn";
    "Tennessee"; "Texas"; "Baylor"; "Houston"; "Arkansas"; "Iowa State";
    "Iowa"; "Maryland"; "Virginia"; "North Carolina State"; "Notre Dame" ].

(** [for school, aliases in self.school_aliases.items()]: a school is
    appended when the text holds its name or one of its aliases. *)
Fixpoint mention_aliased (text : string) (table : list (string * list string))
    (mentioned_schools : list string) : list string :=
  match table with
  | [] => mentioned_schools
  | (school, aliases) :: rest =>
      if contains school text
      then mention_aliased text rest (mentioned_schools ++ [school])
      else if existsb (fun alias => contains alias text) aliases
           then mention_aliased text rest (mentioned_schools ++ [school])
           else mention_aliased text rest mentioned_schools
  end.

(** [for school in school_names]: a school the text holds is appended
    unless it is in the list. *)
Fixpoint mention_named (text : string) (names : list string)
    (mentioned_schools : list string) : list string :=
  match names with
  | [] => mentioned_schools
  | school :: rest =>
      if contains school text && negb (bool_decide (school ∈ mentioned_schools))
      then mention_named text rest (mentioned_schools ++ [school])
      else mention_named text rest mentioned_schools
  end.

(** [_extract_school_mentions(text)] *)
Definition _extract_school_mentions (text : string) : list string :=
  if negb (truthy (Some text)) then []
  else mention_named text school_names (mention_aliased text school_aliases []).

(** The [event_patterns] of [_detect_event_types], in the order of the
    dict. *)
Definition event_patterns : list (TransferEventType * list string) :=
  [ (PORTAL_ENTRY, ["enters portal"; "enters transfer portal"; "has entered the portal"]);
    (COMMITMENT, ["commits to"; "committed to"; "signs with"; "chooses";
                  "announces commitment"]);
    (VISIT_SCHEDULED, ["scheduled visit"; "plans to visit"; "official visit to";
                       "visit scheduled"]);
    (VISIT_COMPLETED, ["completed visit"; "visited"; "after visiting"; "following visit"]);
    (FINAL_LIST, ["final list"; "top schools"; "narrowed down"; "finalists"]);
    (COACH_CHANGE, ["coach fired"; "coaching change"; "new coach"; "head coach";
                    "coaching staff"]);
    (NIL_RELATED, ["NIL deal"; "NIL opportunity"; "name, image and likeness";
                   "NIL collective"]);
    (ACADEMIC_RELATED, ["academic"; "degree"; "graduate"; "major"; "education";
                        "classroom"]);
    (PLAYING_TIME, ["playing time"; "minutes"; "starter"; "bench"; "rotation"; "role"]);
    (FAMILY_RELATED, ["family"; "closer to home"; "parents"; "child"; "hometown"]);
    (GRADUATION_TRANSFER, ["graduate transfer"; "fifth year"; "sixth year";
                           "grad transfer"]);
    (MEDICAL_RELATED, ["injury"; "medical"; "surgery"; "recovery"; "health"]);
    (DECOMMITMENT, ["decommits"; "reopens recruitment"; "backs out"; "decommitment"]) ].

(** [combined_text]: the title and a space, then the content; a missing
    or empty part adds nothing. *)
Definition combined_text (title content : option string) : string :=
  (if truthy title then default "" title +:+ " " else "")
  +:+ (if truthy content then default "" content else "").

(** [pattern.lower() in combined_text.lower()] *)
Definition occurs (pattern text : string) : bool :=
  contains (lower pattern) (lower text).

(** The loop over [event_patterns.items()]: an event type is appended
    at its first pattern that occurs. *)
Fixpoint detect (text : string) (table : list (TransferEventType * list string))
    (event_types : list TransferEventType) : list TransferEventType :=
  match table with
  | [] => event_types
  | (event_type, patterns) :: rest =>
      if existsb (fun pattern => occurs pattern text) patterns
      then detect text rest (event_types ++ [event_type])
      else detect text rest event_types
  end.

(** [_detect_event_types(title, content)] *)
Definition _detect_event_types (title content : option string)
    : list TransferEventType :=
  let combined_text := combined_text title content in
  if negb (truthy (Some combined_text)) then []
  else detect combined_text event_patterns [].

(** ** Vocabulary *)

(** [needle] is a part of [hay]. *)
Definition part_of (needle hay : string) : Prop :=
  exists pre post, hay = pre +:+ needle +:+ post.

(** Some pattern of the event type occurs in the text, in any case of
    the letters. *)
Definition signalled (event_type : TransferEventType) (text : string) : Prop :=
  exists patterns pattern,
    (event_type, patterns) ∈ event_patterns /\ pattern ∈ patterns
    /\ part_of (lower pattern) (lower text).

End NewsExtraction.

(* ===================================================================== *)
(** * Refresh cycles that interleave                                      *)
(* ===================================================================== *)

(** [refresh_all_agents] runs the refresh cycles of all sources under
    [asyncio.gather], and [start] leaves one [_schedule_refreshes] task
    per source behind: the cycles interleave.  A cycle gives up control
    only at [await agent.scrape_players()], so the orchestrator moves by
    the first halves ([refresh_begin]) and the second halves
    ([refresh_finish]) of cycles, in any order in which the second half of
    a source comes after a first half of it. *)
Module Interleaving.
Import Orchestrator.

Inductive interleaved : State -> Prop :=
| interleaved_init (interval : Z) : interleaved (init interval)
| interleaved_begin (st st' : State) (clk : nat -> Instant) (s : DataSource)
    (start_time : float) :
    interleaved st ->
    refresh_begin clk s st = Py.Ok (st', start_time) ->
    interleaved st'
| interleaved_finish (st : State) (clk : nat -> Instant) (s : DataSource)
    (start_time : float) (scraped : Py.result (list Raw.t)) :
    interleaved st ->
    s ∈ Alist.keys (agents st) ->
    interleaved (refresh_finish clk s start_time scraped st).1.

(** What [refresh_agent] returns when its scrape had this outcome and
    nothing else failed. *)
Definition scrape_returned (scraped : Py.result (list Raw.t)) : bool :=
  match scraped with
  | Py.Ok _ => true
  | Py.Raise _ => false
  end.

End Interleaving.

(* ===================================================================== *)
(** * The single-agent API and the tracker agent                          *)
(* ===================================================================== *)

(** [get_players] of [fastapi_orchestrator.py].  Its cache holds what the
    ON3 agent scraped; in those records a key is absent or holds a
    string, so [p.get(key, "")] is the field or [""]. *)
Module SimpleApi.
Import Py.

(** [needle.lower() in p.get(key, "").lower()] *)
Definition mentions (needle : string) (value : option string) : bool :=
  contains (lower needle) (lower (default "" value)).

(** [get_players(limit, position, school)]: the list under ["players"]. *)
Definition get_players (cache : list Raw.t) (limit : Z) (position school : option string)
    : list Raw.t :=
  match cache with
  | [] => []
  | _ =>
      let players := cache in
      let players :=
        if truthy position
        then List.filter (fun p => mentions (default "" position) (Raw.position p)) players
        else players in
      let players :=
        if truthy school
        then List.filter
               (fun p => mentions (default "" school) (Raw.previous_school p)
                         || mentions (default "" school) (Raw.destination_school p))
               players
        else players in
      slice_to limit players
  end.

End SimpleApi.

(** [TransferPortalTrackerAgent] of [transfer_portal_tracker_agent.py]:
    its cache, [refresh_data] and [get_players]. *)
Module Tracker.
Import Py Api.

(** The values of [src.config.settings] the agent reads. *)
Record Settings : Type := mkSettings {
  CACHE_EXPIRY : float;
  USE_ON3 : bool;
  USE_247SPORTS : bool;
  USE_RIVALS : bool
}.

(** [self.data] and the module's [player_cache]. *)
Record Agent : Type := mkAgent {
  data : list Raw.t;
  cache_data : list Raw.t;
  cache_last_updated : float
}.

(** [__init__], with the cache as the module sets it up. *)
Definition init : Agent := mkAgent [] [] 0.

(** What the three [scrape_players()] calls return or raise. *)
Record Scrapes : Type := mkScrapes {
  on3_players : result (list Raw.t);
  sports247_players : result (list Raw.t);
  rivals_players : result (list Raw.t)
}.

(** [if USE_X: try: all_players.extend(await agent.scrape_players())
    except Exception: pass] *)
Definition extend (enabled : bool) (scraped : result (list Raw.t))
    (all_players : list Raw.t) : list Raw.t :=
  if enabled then
    match scraped with
    | Ok players => all_players ++ players
    | Raise _ => all_players
    end
  else all_players.

(** [refresh_data()]; [current_time] is what [time.time()] returns.  The
    [HTTPException] raised inside the [try] is caught and raised again,
    with the same status. *)
Definition refresh_data (settings : Settings) (current_time : float) (scrapes : Scrapes)
    (a : Agent) : Agent * response (list Raw.t) :=
  if PrimFloat.ltb (current_time - cache_last_updated a) (CACHE_EXPIRY settings)
  then (a, Body (cache_data a))
  else
    let all_players := extend (USE_ON3 settings) (on3_players scrapes) [] in
    let all_players :=
      extend (USE_247SPORTS settings) (sports247_players scrapes) all_players in
    let all_players := extend (USE_RIVALS settings) (rivals_players scrapes) all_players in
    match all_players with
    | [] => (a, HTTPException 500)
    | _ => (mkAgent (data a) all_players current_time, Body all_players)
    end.

(** The list of [Player] models built from the records, each record
    passed as the keywords of the constructor: [validate] is the
    validation of one record by the [Player] model, [None] when it
    raises. *)
Fixpoint validate_all {P : Type} (validate : Raw.t -> option P) (players : list Raw.t)
    : option (list P) :=
  match players with
  | [] => Some []
  | player :: rest =>
      match validate player with
      | Some p =>
          match validate_all validate rest with
          | Some ps => Some (p :: ps)
          | None => None
          end
      | None => None
      end
  end.

(** [GET /players]: the agent's [get_players()] behind the handler that
    turns every exception into a 500. *)
Definition get_players {P : Type} (validate : Raw.t -> option P) (settings : Settings)
    (current_time : float) (scrapes : Scrapes) (a : Agent)
    : Agent * response (list P) :=
  let '(a, refreshed) :=
    match data a with
    | [] =>
        match refresh_data settings current_time scrapes a with
        | (a, Body _) => (a, true)
        | (a, HTTPException _) => (a, false)
        end
    | _ => (a, true)
    end in
  if refreshed then
    match validate_all validate (data a) with
    | Some players => (a, Body players)
    | None => (a, HTTPException 500)
    end
  else (a, HTTPException 500).

(** The states of the agent: every call of [refresh_data] (at startup,
    from [POST /players/refresh] and from [search_players], which changes
    nothing else) and of [get_players]. *)
Inductive reachable : Agent -> Prop :=
| reachable_init : reachable init
| reachable_refresh_data (a : Agent) (settings : Settings) (current_time : float)
    (scrapes : Scrapes) :
    reachable a -> reachable (refresh_data settings current_time scrapes a).1
| reachable_get_players (a : Agent) (settings : Settings) (current_time : float)
    (scrapes : Scrapes) :
    reachable a ->
    reachable (get_players (fun player => Some player) settings current_time scrapes a).1.

End Tracker.

(* ===================================================================== *)
(** * Properties of the record merger                                     *)
(* ===================================================================== *)

Section MergerProperties.
Import Orchestrator Spec.

Implicit Types (p player : TransferPlayer.t) (r : Raw.t) (s source : DataSource).
Implicit Types (f : scalar_field) (now : string).

(** A non-authoritative source finds the gate closed as soon as one scalar
    field has a value. *)
Lemma update_basic_closed p s f :
  s <> ON3 -> is_set (current f p) -> update_basic p s = false.
Proof.
  intros Hs Hset. unfold update_basic.
  rewrite bool_decide_eq_false_2 by done. cbn [orb].
  apply negb_false_iff. unfold is_set in Hset.
  destruct f; cbn in Hset |- *; rewrite Hset;
    repeat (rewrite orb_true_r || rewrite orb_true_l); reflexivity.
Qed.


(** What the merge does to a scalar field, by the state of the gate. *)
Lemma merge_scalar_closed p r s now f :
  update_basic p s = false ->
  current f (_update_player_from_source p r s now) = current f p.
Proof.
  intros Hb. unfold _update_player_from_source.
  destruct (update_rankings p r s). rewrite Hb. destruct f; reflexivity.
Qed.

Lemma merge_scalar_open p r s now f :
  update_basic p s = true ->
  current f (_update_player_from_source p r s now)
  = if Py.truthy (supplied f r) then supplied f r else current f p.
Proof.
  intros Hb. unfold _update_player_from_source.
  destruct (update_rankings p r s). rewrite Hb.
  destruct f; cbn; unfold assign, assign_or;
    repeat match goal with
      | |- context [Py.truthy ?o] =>
          lazymatch o with
          | Raw.position _ => idtac | Raw.height _ => idtac
          | Raw.previous_school _ => idtac | Raw.last_team _ => idtac
          | Raw.class_year _ => idtac | Raw.eligibility _ => idtac
          | Raw.status _ => idtac | Raw.destination_school _ => idtac
          | Raw.new_team _ => idtac
          end;
          let E := fresh "E" in destruct (Py.truthy o) eqn:E
      end;
    cbn; rewrite ?E, ?E0, ?E1; try reflexivity;
    rewrite ?andb_true_r, ?andb_false_r;
    repeat case_bool_decide; cbn; rewrite ?E, ?E0, ?E1; try reflexivity;
    try congruence.
Qed.

(** C4. A source other than ON3 never overwrites a scalar field that
    already has a value: position, height, previous and destination
    school, class year, eligibility and status are each left as they were
    by the merge of any raw record from such a source. *)
Theorem non_authoritative_source_never_overwrites p r s now f :
  s <> ON3 ->
  is_set (current f p) ->
  current f (_update_player_from_source p r s now) = current f p.
Proof.
  intros Hs Hset. apply merge_scalar_closed.
  by apply update_basic_closed with f.
Qed.

Lemma non_authoritative_source_never_overwrites_witness :
  RIVALS <> ON3
  /\ is_set (current Position Examples.john_guard)
  /\ current Position
       (_update_player_from_source Examples.john_guard
          (Examples.positioned "John Smith" "F") RIVALS "2024-04-02T08:00:00")
     = Some "G".
Proof.
  split; [discriminate|]. split; [reflexivity|].
  rewrite (non_authoritative_source_never_overwrites Examples.john_guard
             (Examples.positioned "John Smith" "F") RIVALS
             "2024-04-02T08:00:00" Position);
    [reflexivity | discriminate | reflexivity].
Defined.




(** ** Composite ranking *)



Lemma size_insert_pos (m : gmap DataSource Z) s (rank : Z) :
  size (<[s := rank]> m) <> 0%nat.
Proof. intros H. apply map_size_empty_iff in H. by apply insert_non_empty in H. Qed.


Lemma update_rankings_recorded p r s (rank : Z) :
  recorded_rank r = Some rank ->
  update_rankings p r s
  = (<[s := rank]> (TransferPlayer.rankings p),
     Some (composite_of (<[s := rank]> (TransferPlayer.rankings p)))).
Proof.
  unfold recorded_rank, update_rankings. intros H.
  destruct (Raw.rank_truthy (Raw.rank r)); [|discriminate].
  destruct (Raw.rank r) as [value|]; [|discriminate]. cbn in H. rewrite H.
  by rewrite bool_decide_eq_false_2 by apply size_insert_pos.
Qed.

Lemma update_rankings_not_recorded p r s :
  recorded_rank r = None ->
  update_rankings p r s
  = (TransferPlayer.rankings p, TransferPlayer.composite_ranking p).
Proof.
  unfold recorded_rank, update_rankings. intros H.
  destruct (Raw.rank r) as [value|]; [|reflexivity].
  destruct (Raw.rank_truthy (Some value)); [|reflexivity].
  cbn in H. by rewrite H.
Qed.

Lemma merge_rankings p r s now :
  (TransferPlayer.rankings (_update_player_from_source p r s now),
   TransferPlayer.composite_ranking (_update_player_from_source p r s now))
  = update_rankings p r s.
Proof.
  unfold _update_player_from_source. by destruct (update_rankings p r s).
Qed.



(** ** Repeated merges *)

Lemma update_basic_ext p q s :
  (forall f, current f p = current f q) -> update_basic p s = update_basic q s.
Proof.
  intros H. unfold update_basic.
  pose proof (H Position) as H1. pose proof (H Height) as H2.
  pose proof (H PreviousSchool) as H3. pose proof (H ClassYear) as H4.
  pose proof (H Eligibility) as H5. pose proof (H Status) as H6.
  pose proof (H DestinationSchool) as H7.
  cbn in H1, H2, H3, H4, H5, H6, H7. by rewrite H1, H2, H3, H4, H5, H6, H7.
Qed.

(** A second merge of the same record finds every scalar field as the
    first merge left it. *)
Lemma merge_scalar_twice p r s t1 t2 f :
  current f (_update_player_from_source (_update_player_from_source p r s t1) r s t2)
  = current f (_update_player_from_source p r s t1).
Proof.
  set (p1 := _update_player_from_source p r s t1).
  destruct (update_basic p1 s) eqn:Hb1; [|by apply merge_scalar_closed].
  rewrite merge_scalar_open by done.
  destruct (Py.truthy (supplied f r)) eqn:Hsup; [|reflexivity].
  destruct (update_basic p s) eqn:Hb.
  - subst p1. rewrite merge_scalar_open by done. by rewrite Hsup.
  - rewrite (update_basic_ext p1 p s) in Hb1; [congruence|].
    intros g. by apply merge_scalar_closed.
Qed.

Lemma update_rankings_twice p r s t1 :
  let p1 := _update_player_from_source p r s t1 in
  update_rankings p1 r s
  = (TransferPlayer.rankings p1, TransferPlayer.composite_ranking p1).
Proof.
  intros p1. pose proof (merge_rankings p r s t1) as Hm. fold p1 in Hm.
  destruct (recorded_rank r) as [rank|] eqn:Hrank.
  - rewrite (update_rankings_recorded p r s rank Hrank) in Hm.
    rewrite (update_rankings_recorded p1 r s rank Hrank).
    injection Hm as Hrk Hc. rewrite Hrk, Hc. by rewrite insert_insert_eq.
  - by apply update_rankings_not_recorded.
Qed.

Lemma record_for_twice s (value : option string) (m : gmap DataSource string) :
  record_for s value (record_for s value m) = record_for s value m.
Proof.
  unfold record_for. destruct value as [v|]; [|reflexivity].
  destruct (Py.truthy (Some v)); [|reflexivity]. apply insert_insert_eq.
Qed.

(** C9, as stated, fails: the second merge stamps the source's
    [last_updated] entry with the time of the second merge. *)
Lemma merge_twice_identical_fails : ~ merge_twice_identical.
Proof.
  intros H.
  specialize (H Examples.john (Examples.ranked "John Smith" 5) ON3
                "2024-04-01T10:00:00" "2024-04-01T10:00:01").
  apply (f_equal (fun p => TransferPlayer.last_updated p !! ON3)) in H.
  vm_compute in H. discriminate H.
Qed.

(** C9, amended. Merging the same raw record from the same source a
    second time changes nothing but that source's [last_updated] entry,
    which takes the time of the second merge; every other field of the
    consolidated player is as the first merge left it. *)
Theorem repeated_merge_only_moves_timestamp p r s t1 t2 :
  let p1 := _update_player_from_source p r s t1 in
  _update_player_from_source p1 r s t2
  = with_last_updated (<[s := t2]> (TransferPlayer.last_updated p1)) p1.
Proof.
  intros p1.
  pose proof (fun f => merge_scalar_twice p r s t1 t2 f) as Hscalar. fold p1 in Hscalar.
  pose proof (update_rankings_twice p r s t1) as Hrk. cbv zeta in Hrk. fold p1 in Hrk.
  assert (Hurl : record_for s (Raw.profile_url r) (TransferPlayer.profile_urls p1)
                 = TransferPlayer.profile_urls p1).
  { subst p1. unfold _update_player_from_source.
    destruct (update_rankings p r s). cbn. apply record_for_twice. }
  assert (Hnil : record_for s (Raw.nil_valuation r) (TransferPlayer.nil_valuation p1)
                 = TransferPlayer.nil_valuation p1).
  { subst p1. unfold _update_player_from_source.
    destruct (update_rankings p r s). cbn. apply record_for_twice. }
  assert (Hstats : match Raw.stats r with
                   | Some stats_dict =>
                       <[s := stats_of stats_dict s]> (TransferPlayer.stats p1)
                   | None => TransferPlayer.stats p1
                   end = TransferPlayer.stats p1).
  { subst p1. unfold _update_player_from_source.
    destruct (update_rankings p r s). cbn.
    destruct (Raw.stats r); [apply insert_insert_eq | reflexivity]. }
  pose proof (Hscalar Position) as H1. pose proof (Hscalar Height) as H2.
  pose proof (Hscalar PreviousSchool) as H3. pose proof (Hscalar ClassYear) as H4.
  pose proof (Hscalar Eligibility) as H5. pose proof (Hscalar Status) as H6.
  pose proof (Hscalar DestinationSchool) as H7.
  clear Hscalar. clearbody p1. revert H1 H2 H3 H4 H5 H6 H7.
  unfold with_last_updated, _update_player_from_source.
  rewrite Hrk, Hurl, Hnil, Hstats. cbn.
  intros -> -> -> -> -> -> ->. reflexivity.
Qed.

End MergerProperties.

(* ===================================================================== *)
(** * Properties of the query engine                                      *)
(* ===================================================================== *)

Section QueryProperties.
Import Orchestrator Spec.

Lemma insert_sorted_permutation {A : Type} (lt : A -> A -> bool) (x : A) (l : list A) :
  Py.insert_sorted lt x l ≡ₚ x :: l.
Proof.
  induction l as [|y l IH]; [done|]. cbn. destruct (lt y x); [|done].
  rewrite IH. apply Permutation_swap.
Qed.

(** Sorting keeps every element. *)
Lemma sort_permutation {A : Type} (lt : A -> A -> bool) (l : list A) :
  Py.sort lt l ≡ₚ l.
Proof.
  induction l as [|x l IH]; [done|]. cbn.
  rewrite insert_sorted_permutation. by rewrite IH.
Qed.


Lemma rank_key_unranked p : unranked p -> rank_key_of (TransferPlayer.composite_ranking p) = MinusInf.
Proof.
  unfold unranked, rank_key_of. destruct (TransferPlayer.composite_ranking p); [|done].
  by intros ->.
Qed.

Lemma rank_key_ranked p :
  ~ unranked p -> exists z, rank_key_of (TransferPlayer.composite_ranking p) = Negated z.
Proof.
  unfold unranked, rank_key_of. destruct (TransferPlayer.composite_ranking p) as [z|]; [|done].
  destruct (Py.truthy_int (Some z)); [by exists (- z)%Z | done].
Qed.

Lemma insert_sorted_unranked_first (x : TransferPlayer.t) (l : list TransferPlayer.t) :
  unranked_first l -> unranked_first (Py.insert_sorted player_ltb x l).
Proof.
  intros (us & rs & -> & Hus & Hrs).
  destruct (decide (Py.truthy_int (TransferPlayer.composite_ranking x) = false))
    as [Hx|Hx].
  - (* an unranked player stays within the unranked players *)
    induction Hus as [|u us Hu Hus IH]; cbn.
    + exists [x], rs. split; [|by repeat constructor].
      destruct Hrs as [|r rs Hr Hrs]; [done|]. cbn.
      unfold player_ltb, key_ltb, sort_key. cbn.
      destruct (rank_key_ranked r Hr) as [z ->].
      by rewrite (rank_key_unranked x Hx).
    + destruct (player_ltb u x).
      * destruct IH as (us' & rs' & -> & ? & ?).
        exists (u :: us'), rs'. split; [done|]. split; [by constructor | done].
      * exists (x :: u :: us), rs. split; [done|]. split; [by repeat constructor | done].
  - (* a ranked player passes every unranked player *)
    induction Hus as [|u us Hu Hus IH]; cbn.
    + exists [], (Py.insert_sorted player_ltb x rs). split; [done|].
      split; [constructor|]. rewrite insert_sorted_permutation. by constructor.
    + unfold player_ltb at 1. unfold key_ltb, sort_key. cbn.
      destruct (rank_key_ranked x Hx) as [z ->].
      rewrite (rank_key_unranked u Hu). cbn.
      destruct IH as (us' & rs' & -> & ? & ?).
      exists (u :: us'), rs'. split; [done|]. split; [by constructor | done].
Qed.

(** Whatever the store and the query, the players without a composite
    ranking come first in the sorted selection. *)
Lemma selected_unranked_first st query : unranked_first (selected st query).
Proof.
  unfold selected.
  induction (apply_filters query (Alist.values (players st))) as [|x l IH]; cbn.
  - exists [], []. by repeat constructor.
  - by apply insert_sorted_unranked_first.
Qed.

(** C1: on the code, a player without a composite ranking sorts first.
    With Zed unranked, Amy ranked 10 and Bo ranked 3 in the store, the
    query returns Zed, Amy, Bo. *)
Theorem query_puts_unranked_players_first :
  TransferPlayer.name <$> query_players Examples.three_players PortalQuery.default
  = ["Zed"; "Amy"; "Bo"]
  /\ TransferPlayer.composite_ranking
       <$> query_players Examples.three_players PortalQuery.default
     = [None; Some 10%Z; Some 3%Z].
Proof. split; vm_compute; reflexivity. Qed.



(** A negative limit is truthy as well: the slice then drops players from
    the end of the sorted list. *)
Lemma negative_limit_drops_from_the_end st query (n : Z) :
  PortalQuery.limit query = Some n -> (n < 0)%Z -> players st <> [] ->
  query_players st query
  = take (length (selected st query) - Z.to_nat (- n)) (selected st query).
Proof.
  intros H Hn Hne. unfold query_players. rewrite H.
  destruct (players st) eqn:E; [done|]. rewrite <- E. cbn.
  destruct (Z.eqb_spec n 0) as [->|_]; [lia|]. cbn.
  unfold Py.slice_to. destruct (Z.leb_spec 0 n); [lia | reflexivity].
Qed.

End QueryProperties.

(* ===================================================================== *)
(** * Properties of consolidation and refresh                             *)
(* ===================================================================== *)

Section AlistFacts.
Context {K V : Type} `{EqDecision K}.
Implicit Types (k : K) (v : V) (l : list (K * V)).

Lemma alist_keys_set k v l :
  Alist.keys (Alist.set k v l)
  = if bool_decide (k ∈ Alist.keys l) then Alist.keys l else Alist.keys l ++ [k].
Proof.
  unfold Alist.keys. induction l as [|[k' v'] l IH]; [done|]. cbn.
  destruct (decide (k = k')) as [->|Hne]; cbn.
  - rewrite bool_decide_eq_true_2 by set_solver. done.
  - rewrite IH. destruct (bool_decide (k ∈ l.*1)) eqn:E.
    + apply bool_decide_eq_true_1 in E.
      rewrite bool_decide_eq_true_2 by set_solver. done.
    + apply bool_decide_eq_false_1 in E.
      rewrite bool_decide_eq_false_2 by set_solver. done.
Qed.


Lemma alist_set_keys_mono k' k v l :
  k' ∈ Alist.keys l -> k' ∈ Alist.keys (Alist.set k v l).
Proof. rewrite alist_keys_set. case_bool_decide; set_solver. Qed.

Lemma alist_set_keys_inv k' k v l :
  k' ∈ Alist.keys (Alist.set k v l) -> k' = k \/ k' ∈ Alist.keys l.
Proof. rewrite alist_keys_set. case_bool_decide; set_solver. Qed.


Lemma alist_set_elem_inv k v l (e : K * V) :
  NoDup (Alist.keys l) ->
  e ∈ Alist.set k v l -> e = (k, v) \/ (e ∈ l /\ e.1 <> k).
Proof.
  unfold Alist.keys. induction l as [|[k' v'] l IH]; cbn; [set_solver|].
  intros [Hk' Hnd]%NoDup_cons.
  destruct (decide (k = k')) as [->|Hne].
  - intros [->|Hin]%elem_of_cons; [by left|]. right. split; [set_solver|].
    intros <-. apply Hk'. apply list_elem_of_fmap. by exists e.
  - intros [->|Hin]%elem_of_cons; [right; set_solver|].
    destruct (IH Hnd Hin) as [->|[? ?]]; [by left | right; set_solver].
Qed.

Lemma alist_lookup_elem k v l : Alist.lookup k l = Some v -> (k, v) ∈ l.
Proof.
  induction l as [|[k' v'] l IH]; cbn; [done|].
  destruct (decide (k = k')) as [->|Hne]; [intros [= ->]|]; set_solver.
Qed.


Lemma alist_lookup_key k l : k ∈ Alist.keys l -> is_Some (Alist.lookup k l).
Proof.
  unfold Alist.keys. induction l as [|[k' v'] l IH]; cbn; [set_solver|].
  destruct (decide (k = k')); [by eexists|]. set_solver.
Qed.

Lemma alist_keys_filter (Q : K -> Prop) `{!forall k, Decision (Q k)} k l :
  k ∈ Alist.keys (filter (fun kv => Q kv.1) l) <-> k ∈ Alist.keys l /\ Q k.
Proof.
  unfold Alist.keys. rewrite !list_elem_of_fmap. split.
  - intros ([k' v] & -> & [HQ Hin]%list_elem_of_filter). split; [|done].
    by exists (k', v).
  - intros [([k' v] & -> & Hin) HQ]. exists (k', v). split; [done|].
    by apply list_elem_of_filter.
Qed.




Lemma alist_lookup_set k k' v l :
  Alist.lookup k (Alist.set k' v l)
  = if decide (k = k') then Some v else Alist.lookup k l.
Proof.
  induction l as [|[k0 v0] l IH]; cbn.
  - done.
  - destruct (decide (k' = k0)) as [->|Hne]; cbn.
    + by destruct (decide (k = k0)).
    + rewrite IH. destruct (decide (k = k0)) as [->|?]; [|done].
      by rewrite decide_False.
Qed.

Lemma alist_elem_lookup k v l :
  NoDup (Alist.keys l) -> (k, v) ∈ l -> Alist.lookup k l = Some v.
Proof.
  unfold Alist.keys. induction l as [|[k' v'] l IH]; cbn; [set_solver|].
  intros [Hk' Hnd]%NoDup_cons [[= -> ->]|Hin]%elem_of_cons.
  - by rewrite decide_True.
  - rewrite decide_False; [by apply IH|].
    intros ->. apply Hk'. apply list_elem_of_fmap. by exists (k', v).
Qed.

Lemma alist_keys_fmap {W : Type} (h : K * V -> W) l :
  Alist.keys ((fun e => (e.1, h e)) <$> l) = Alist.keys l.
Proof.
  unfold Alist.keys. induction l as [|[k' v'] l IH]; cbn; [done|]. by rewrite IH.
Qed.

(** Updating the values in place keeps the keys: a lookup sees the
    updated value. *)
Lemma alist_lookup_fmap {W : Type} (h : K * V -> W) k l :
  Alist.lookup k ((fun e => (e.1, h e)) <$> l)
  = (fun v => h (k, v)) <$> Alist.lookup k l.
Proof.
  induction l as [|[k' v'] l IH]; cbn; [done|].
  destruct (decide (k = k')) as [->|?]; [done | apply IH].
Qed.

End AlistFacts.

Section ConsolidationProperties.
Import Orchestrator Spec.

Implicit Types (clk : nat -> Instant) (ps : Pass) (st : State).
Implicit Types (s a b : DataSource) (k : string) (data : list Raw.t) (r : Raw.t).

(** ** One batch *)







(** ** One pass over the agents *)

Lemma consolidate_sources_ok clk (metrics : gmap DataSource AgentMetrics.t)
    (agents : list (DataSource * list Raw.t)) ps :
  (forall s, s ∈ Alist.keys agents -> is_Some (metrics !! s)) ->
  (consolidate_sources clk metrics agents ps).2 = None.
Proof.
  revert ps. induction agents as [|[s d] agents IH]; intros ps H; cbn; [done|].
  destruct (H s) as [m Hm]; [set_solver|]. rewrite Hm.
  destruct (skipped m); apply IH; intros; apply H; set_solver.
Qed.





(** ** A whole consolidation pass *)

Lemma consolidate_data_ok clk st :
  configured st -> (consolidate_data clk st).2 = None.
Proof.
  intros [_ Hc]. unfold consolidate_data.
  pose proof (consolidate_sources_ok clk (metrics st) (agents st)
                (mkPass (players st) ∅ 0) Hc) as Hok.
  destruct (consolidate_sources _ _ _ _) as [ps [e|]]; [discriminate|done].
Qed.


(** ** A refresh cycle *)

Lemma init_configured (interval : Z) : configured (init interval).
Proof.
  split.
  - cbn. repeat constructor; set_solver.
  - intros s Hs. cbn in Hs.
    destruct s; try (by eexists); set_solver.
Qed.

Lemma consolidate_data_frame clk st :
  agents (consolidate_data clk st).1 = agents st
  /\ metrics (consolidate_data clk st).1 = metrics st.
Proof.
  unfold consolidate_data.
  by destruct (consolidate_sources _ _ _ _) as [ps [e|]].
Qed.

Lemma failed_state_configured clk s m st :
  configured st -> configured (failed_state clk s m st).
Proof.
  intros [Hnd Hc]. split; [done|]. intros s' Hs'. cbn.
  destruct (decide (s = s')) as [->|Hne];
    [rewrite lookup_insert_eq; by eexists | rewrite lookup_insert_ne by done; by apply Hc].
Qed.

Lemma fetched_state_configured clk s data m st :
  configured st -> s ∈ Alist.keys (agents st) ->
  configured (fetched_state clk s data m st).
Proof.
  intros [Hnd Hc] Hs. unfold configured, fetched_state, with_agents, with_metrics.
  cbn [agents metrics].
  rewrite alist_keys_set, bool_decide_eq_true_2 by done.
  split; [done|]. intros s' Hs'.
  destruct (decide (s = s')) as [->|Hne];
    [rewrite lookup_insert_eq; by eexists | rewrite lookup_insert_ne by done; by apply Hc].
Qed.

(** A refresh whose scrape raises: the error is recorded, nothing else
    changes, and the call returns [False]. *)
Lemma refresh_agent_raise clk s e st m :
  s ∈ Alist.keys (agents st) -> metrics st !! s = Some m ->
  refresh_agent clk s (Py.Raise e) st = Py.Ok (failed_state clk s m st, false).
Proof.
  intros [c Hc]%alist_lookup_key Hm.
  unfold refresh_agent, refresh_begin. rewrite Hc, Hm.
  unfold refresh_finish, record_failure. cbn.
  rewrite lookup_insert_eq. unfold failed_state, with_metrics. cbn.
  by rewrite insert_insert_eq.
Qed.

(** A refresh whose scrape returns: the batch is cached, the metrics are
    updated, one consolidation pass runs, and the call returns [True]. *)
Lemma refresh_agent_return clk s data st m :
  configured st -> s ∈ Alist.keys (agents st) -> metrics st !! s = Some m ->
  refresh_agent clk s (Py.Ok data) st
  = Py.Ok ((consolidate_data (fun i => clk (4 + i)%nat)
              (fetched_state clk s data m st)).1, true).
Proof.
  intros Hconf Hs Hm. destruct (alist_lookup_key _ _ Hs) as [c Hc].
  pose proof (consolidate_data_ok (fun i => clk (4 + i)%nat) _
                (fetched_state_configured clk s data m st Hconf Hs)) as Hok.
  unfold refresh_agent, refresh_begin. rewrite Hc, Hm.
  unfold refresh_finish. cbn [metrics with_metrics].
  rewrite lookup_insert_eq. cbn [AgentMetrics.average_refresh_time_ms
    AgentMetrics.last_refresh_attempt AgentMetrics.refresh_count
    AgentMetrics.error_count].
  rewrite insert_insert_eq.
  change (with_agents _ _) with (fetched_state clk s data m st).
  change (fun i : nat => clk (2 + (2 + i))%nat) with (fun i : nat => clk (4 + i)%nat).
  destruct (consolidate_data _ _) as [st' [e|]]; [discriminate|done].
Qed.

(** A refresh cycle keeps the agent table and its metrics in step. *)
Lemma after_refresh_configured clk s scraped st :
  configured st -> s ∈ Alist.keys (agents st) ->
  configured (after st (refresh_agent clk s scraped st))
  /\ Alist.keys (agents (after st (refresh_agent clk s scraped st)))
     = Alist.keys (agents st).
Proof.
  intros Hconf Hs. destruct (proj2 Hconf s Hs) as [m Hm].
  destruct scraped as [data|e].
  - rewrite (refresh_agent_return clk s data st m) by done.
    unfold after, configured.
    destruct (consolidate_data_frame (fun i => clk (4 + i)%nat)
                (fetched_state clk s data m st)) as [-> ->].
    split; [by apply fetched_state_configured|].
    unfold fetched_state, with_agents. cbn [agents].
    by rewrite alist_keys_set, bool_decide_eq_true_2.
  - rewrite (refresh_agent_raise clk s e st m) by done.
    split; [by apply failed_state_configured | done].
Qed.







(** A source that the agent table does not hold ([DataSource.ALL]) makes
    the lookups in front of the [try] raise [KeyError]. *)
Lemma refresh_agent_unknown_source clk s scraped st :
  s ∉ Alist.keys (agents st) ->
  refresh_agent clk s scraped st = Py.Raise Py.KeyError.
Proof.
  intros Hs. unfold refresh_agent, refresh_begin.
  destruct (Alist.lookup s (agents st)) as [c|] eqn:E; [|done].
  destruct Hs. apply alist_lookup_elem in E. unfold Alist.keys.
  apply list_elem_of_fmap. by exists (s, c).
Qed.

(** ** A failing source next to a working one *)





End ConsolidationProperties.

(* ===================================================================== *)
(** * Properties of the news post-processing                              *)
(* ===================================================================== *)

Section NewsProperties.
Import NewsMonitor NewsSpec.

Implicit Types (news items : store) (item : TransferNewsItem) (key name : string).
Implicit Types (field : TransferNewsItem -> option string).

(** ** Grouping *)

(** The first loop collects, under each player's name, the signals about
    that player in the order of the store. *)
Lemma group_by_player_lookup items (acc : list (string * store)) name :
  Alist.lookup name (group_by_player items acc)
  = match Alist.lookup name acc with
    | Some l => Some (l ++ signals items name)
    | None => match signals items name with
              | [] => None
              | e :: l => Some (e :: l)
              end
    end.
Proof.
  revert acc. induction items as [|entry rest IH]; intros acc; cbn.
  - destruct (Alist.lookup name acc); [by rewrite app_nil_r | done].
  - rewrite IH, alist_lookup_set. unfold signals.
    destruct (decide (name = player_name entry.2)) as [->|Hne].
    + rewrite decide_True by done.
      destruct (Alist.lookup (player_name entry.2) acc); cbn;
        [by rewrite <- app_assoc | done].
    + by rewrite decide_False.
Qed.

Lemma concat_values_set (acc : list (string * store)) name (entry : string * TransferNewsItem) :
  concat (Alist.values
            (Alist.set name (default [] (Alist.lookup name acc) ++ [entry]) acc))
  ≡ₚ concat (Alist.values acc) ++ [entry].
Proof.
  unfold Alist.values. induction acc as [|[k v] acc IH]; cbn; [done|].
  destruct (decide (name = k)) as [->|Hne]; cbn.
  - rewrite <- !app_assoc. f_equiv. apply Permutation_app_comm.
  - rewrite IH. by rewrite app_assoc.
Qed.

(** Grouping only rearranges the signals. *)
Lemma group_by_player_concat items (acc : list (string * store)) :
  concat (Alist.values (group_by_player items acc))
  ≡ₚ concat (Alist.values acc) ++ items.
Proof.
  revert acc. induction items as [|entry rest IH]; intros acc; cbn [group_by_player].
  - by rewrite app_nil_r.
  - rewrite IH, concat_values_set. by rewrite <- app_assoc.
Qed.

Lemma elem_of_concat {A : Type} (x : A) (ls : list (list A)) (l : list A) :
  l ∈ ls -> x ∈ l -> x ∈ concat ls.
Proof.
  induction ls as [|l' ls IH]; cbn; [set_solver|].
  intros [->|?]%elem_of_cons ?; set_solver.
Qed.

(** ** One group *)

Lemma reconcile_keys items : Alist.keys (reconcile items) ≡ₚ Alist.keys items.
Proof.
  unfold reconcile. destruct (1 <? length items)%nat; [|done].
  rewrite alist_keys_fmap. fold (Alist.keys (Py.sort newer items)).
  unfold Alist.keys. by rewrite sort_permutation.
Qed.

Lemma reconcile_concat_keys (groups : list store) :
  Alist.keys (concat (reconcile <$> groups)) ≡ₚ Alist.keys (concat groups).
Proof.
  unfold Alist.keys. induction groups as [|g groups IH]; cbn; [done|].
  rewrite !fmap_app, IH. f_equiv. apply reconcile_keys.
Qed.

(** What the last loop does to one item of a group. *)
Lemma reconcile_elem items key item :
  (key, item) ∈ items ->
  (key,
   if (1 <? length items)%nat
   then adjust (length items)
          (most_common (count_schools previous_school (Py.sort newer items) []))
          (most_common (count_schools destination_school (Py.sort newer items) []))
          item
   else item) ∈ reconcile items.
Proof.
  intros Hin. unfold reconcile. destruct (1 <? length items)%nat; [|done].
  rewrite (Permutation_length (sort_permutation newer items)).
  apply list_elem_of_fmap. exists (key, item). split; [done|].
  by rewrite sort_permutation.
Qed.

(** ** The whole post-processing *)

(** Post-processing updates each item by the signals about its player. *)
Lemma post_process_lookup news key item :
  NoDup (Alist.keys news) -> (key, item) ∈ news ->
  Alist.lookup key (_post_process_news_items news)
  = Some (let n := length (signals news (player_name item)) in
          if (1 <? n)%nat
          then adjust n (majority previous_school news (player_name item))
                 (majority destination_school news (player_name item)) item
          else item).
Proof.
  intros Hnd Hin. unfold _post_process_news_items.
  set (updated := concat (reconcile <$> Alist.values (group_by_player news []))).
  rewrite (alist_lookup_fmap
             (fun e : string * TransferNewsItem =>
                default e.2 (Alist.lookup e.1 updated))).
  rewrite (alist_elem_lookup key item news Hnd Hin). cbn [fmap option_fmap option_map fst snd].
  f_equal.
  assert (Hsig : (key, item) ∈ signals news (player_name item)).
  { unfold signals. by apply list_elem_of_filter. }
  assert (Hgroup : Alist.lookup (player_name item) (group_by_player news [])
                   = Some (signals news (player_name item))).
  { rewrite group_by_player_lookup. cbn.
    destruct (signals news (player_name item)); [set_solver | done]. }
  erewrite alist_elem_lookup; [reflexivity| |].
  - subst updated. rewrite reconcile_concat_keys.
    unfold Alist.keys in *. by rewrite group_by_player_concat.
  - subst updated.
    apply elem_of_concat with (reconcile (signals news (player_name item))).
    + apply list_elem_of_fmap. eexists. split; [done|].
      unfold Alist.values. apply list_elem_of_fmap.
      exists (player_name item, signals news (player_name item)).
      split; [done | by apply alist_lookup_elem].
    + by apply reconcile_elem.
Qed.

(** ** The majority value *)

Lemma max_count_elem (best : string * Z) (entries : list (string * Z)) :
  max_count best entries ∈ best :: entries.
Proof.
  revert best. induction entries as [|entry rest IH]; intros best; cbn; [set_solver|].
  destruct (best.2 <? entry.2)%Z; [pose proof (IH entry) | pose proof (IH best)];
    set_solver.
Qed.

Lemma count_schools_keys field items (counts : list (string * Z)) (school : string) :
  school ∈ Alist.keys (count_schools field items counts) ->
  school ∈ Alist.keys counts \/ school <> "".
Proof.
  revert counts. induction items as [|entry rest IH]; intros counts;
    cbn [count_schools]; [by left|].
  destruct (field entry.2) as [value|]; [|apply IH].
  destruct (Py.truthy (Some value)) eqn:E; [|apply IH].
  intros [[->|?]%alist_set_keys_inv|?]%IH; [right|by left|by right].
  cbn in E. apply negb_true_iff in E. by apply String.eqb_neq in E.
Qed.

(** The majority value is never the empty string. *)
Lemma majority_nonempty field news name (school : string) :
  majority field news name = Some school -> school <> "".
Proof.
  unfold majority, most_common. intros H.
  destruct (count_schools field _ []) as [|entry rest] eqn:E; [done|].
  injection H as <-.
  destruct (count_schools_keys field (Py.sort newer (signals news name)) []
              (max_count entry rest).1) as [Hin|]; [|set_solver|done].
  rewrite E. unfold Alist.keys. apply list_elem_of_fmap.
  exists (max_count entry rest). split; [done | apply max_count_elem].
Qed.

Lemma truthy_nonempty (value : string) :
  Py.truthy (Some value) = true <-> value <> "".
Proof. cbn. rewrite negb_true_iff. apply String.eqb_neq. Qed.

Lemma consistent_true (value most_common : option string) :
  consistent value most_common = true
  <-> Py.truthy most_common = true /\ value = most_common.
Proof.
  unfold consistent. destruct (Py.truthy most_common).
  - rewrite bool_decide_eq_true. naive_solver.
  - naive_solver.
Qed.

Lemma conflicting_true (value most_common : option string) :
  conflicting value most_common = true
  <-> Py.truthy most_common = true /\ Py.truthy value = true
      /\ value <> most_common.
Proof.
  unfold conflicting. rewrite !andb_true_iff, bool_decide_eq_true. naive_solver.
Qed.

Lemma agrees_consistent news item :
  agrees news item
  <-> consistent (previous_school item)
        (majority previous_school news (player_name item))
      && consistent (destination_school item)
           (majority destination_school news (player_name item)) = true.
Proof.
  unfold agrees. rewrite andb_true_iff, !consistent_true. split.
  - intros [(p & Hp & Hip) (d & Hd & Hid)]. rewrite Hp, Hd, Hip, Hid.
    pose proof (majority_nonempty _ _ _ _ Hp) as ?%truthy_nonempty.
    pose proof (majority_nonempty _ _ _ _ Hd) as ?%truthy_nonempty. done.
  - intros [[Hp Hip] [Hd Hid]].
    destruct (majority previous_school news (player_name item)) as [p|]; [|done].
    destruct (majority destination_school news (player_name item)) as [d|]; [|done].
    split; [by exists p | by exists d].
Qed.

Lemma differs_conflicting field news item :
  differs field news item
  <-> conflicting (field item) (majority field news (player_name item)) = true.
Proof.
  unfold differs. rewrite conflicting_true. split.
  - intros (school & value & Hm & Hv & Hne & Hdiff). rewrite Hm, Hv.
    pose proof (majority_nonempty _ _ _ _ Hm) as ?%truthy_nonempty.
    apply truthy_nonempty in Hne. split; [done|]. split; [done|]. congruence.
  - intros (Hm & Hv & Hdiff).
    destruct (majority field news (player_name item)) as [school|]; [|done].
    destruct (field item) as [value|]; [|done].
    exists school, value. apply truthy_nonempty in Hv.
    do 3 (split; [done|]). congruence.
Qed.

Lemma consistent_not_conflicting (value most_common : option string) :
  consistent value most_common = true -> conflicting value most_common = false.
Proof.
  intros [_ ->]%consistent_true. apply not_true_iff_false.
  rewrite conflicting_true. naive_solver.
Qed.

Lemma with_score_same item :
  with_score (verified item) (confidence_score item) item = item.
Proof. by destruct item. Qed.

Lemma alist_set_NoDup (k : string) (v : Z) (l : list (string * Z)) :
  NoDup (Alist.keys l) -> NoDup (Alist.keys (Alist.set k v l)).
Proof.
  intros Hnd. rewrite alist_keys_set. case_bool_decide; [done|].
  apply NoDup_app. split; [done|]. split; [set_solver | apply NoDup_singleton].
Qed.

Lemma count_schools_NoDup field items (counts : list (string * Z)) :
  NoDup (Alist.keys counts) -> NoDup (Alist.keys (count_schools field items counts)).
Proof.
  revert counts. induction items as [|entry rest IH]; intros counts Hnd;
    cbn [count_schools]; [done|].
  destruct (field entry.2) as [value|]; [|by apply IH].
  destruct (Py.truthy (Some value)); apply IH; [by apply alist_set_NoDup | done].
Qed.

(** The counting loop counts, for each non-empty school, the signals that
    carry it. *)
Lemma count_schools_lookup field items (counts : list (string * Z)) (school : string) :
  school <> "" ->
  default 0%Z (Alist.lookup school (count_schools field items counts))
  = (default 0%Z (Alist.lookup school counts)
     + Z.of_nat (occurrences field school items))%Z.
Proof.
  intros Hne. revert counts.
  induction items as [|entry rest IH]; intros counts; cbn [count_schools].
  { cbn. lia. }
  unfold occurrences. rewrite filter_cons. fold (occurrences field school rest).
  destruct (field entry.2) as [value|] eqn:Hv.
  - destruct (Py.truthy (Some value)) eqn:E.
    + rewrite IH, alist_lookup_set.
      destruct (decide (school = value)) as [->|Hsv].
      * rewrite decide_True by done. cbn. unfold occurrences. lia.
      * rewrite decide_False by congruence. done.
    + rewrite IH. rewrite decide_False; [done|].
      intros [= ->]. apply truthy_nonempty in Hne. congruence.
  - rewrite IH. by rewrite decide_False.
Qed.

Lemma max_count_max (entries : list (string * Z)) :
  forall best e : string * Z,
    e ∈ best :: entries -> (e.2 <= (max_count best entries).2)%Z.
Proof.
  induction entries as [|entry rest IH]; intros best e; cbn.
  { intros He%list_elem_of_singleton. subst e. lia. }
  pose proof (IH entry entry ltac:(set_solver)).
  pose proof (IH best best ltac:(set_solver)).
  destruct (Z.ltb_spec best.2 entry.2) as [Hlt|Hge];
    (intros [->|[->|Hin]%elem_of_cons]%elem_of_cons;
     [| |apply IH; set_solver]); lia.
Qed.

(** The majority value is a most frequent one: no other non-empty value
    is carried by more signals about the player. *)
Lemma majority_most_frequent field news name (school other : string) :
  majority field news name = Some school -> other <> "" ->
  (occurrences field other (signals news name)
   <= occurrences field school (signals news name))%nat.
Proof.
  intros Hm Hother. pose proof (majority_nonempty _ _ _ _ Hm) as Hschool.
  assert (Hperm : forall w, occurrences field w (Py.sort newer (signals news name))
                            = occurrences field w (signals news name)).
  { intros w. unfold occurrences. by rewrite sort_permutation. }
  pose proof (count_schools_lookup field (Py.sort newer (signals news name)) []
                school Hschool) as Hs.
  pose proof (count_schools_lookup field (Py.sort newer (signals news name)) []
                other Hother) as Ho.
  pose proof (count_schools_NoDup field (Py.sort newer (signals news name)) []
                (NoDup_nil_2 : NoDup (Alist.keys []))) as Hnd.
  rewrite Hperm in Hs, Ho. cbn in Hs, Ho.
  unfold majority, most_common in Hm.
  destruct (count_schools field _ []) as [|entry rest] eqn:E; [done|].
  injection Hm as Hm.
  assert (Hbest : Alist.lookup school (entry :: rest) = Some (max_count entry rest).2).
  { apply alist_elem_lookup; [done|]. rewrite <- Hm.
    pose proof (max_count_elem entry rest) as Hin.
    by destruct (max_count entry rest). }
  rewrite Hbest in Hs. cbn in Hs.
  destruct (Alist.lookup other (entry :: rest)) as [c|] eqn:Ec; cbn in Ho; [|lia].
  apply alist_lookup_elem in Ec.
  pose proof (max_count_max rest entry (other, c) Ec) as Hmax. cbn in Hmax. lia.
Qed.

(** C7, as stated, fails: of two signals about John Smith, one for Duke
    and an older one for Kentucky, the older one is penalised although
    fewer than three signals exist. *)
Lemma untouched_below_three_fails : ~ untouched_below_three.
Proof.
  intros H.
  specialize (H two_signals "n2"
                (signal "n2" "2024-04-01T09:00:00" None (Some "Kentucky") 0.8).2).
  apply (f_equal (fun o : option TransferNewsItem =>
                    match o with
                    | Some item => PrimFloat.eqb (confidence_score item) 0.8
                    | None => false
                    end)) in H.
  - vm_compute in H. discriminate H.
  - cbn. repeat constructor; set_solver.
  - set_solver.
  - vm_compute. lia.
Qed.

(** The last loop's body, case by case. *)
Lemma adjust_cases (n : nat) (most_common_prev most_common_dest : option string) item :
  let agree := consistent (previous_school item) most_common_prev
               && consistent (destination_school item) most_common_dest in
  let conflict := conflicting (previous_school item) most_common_prev
                  || conflicting (destination_school item) most_common_dest in
  adjust n most_common_prev most_common_dest item
  = if agree && (3 <=? n)%nat
    then with_score true (Py.min 1.0 (confidence_score item + 0.1)) item
    else if conflict
         then with_score (verified item) (Py.max 0.3 (confidence_score item - 0.2)) item
         else item.
Proof.
  intros agree conflict. unfold adjust. fold agree.
  destruct (agree && (3 <=? n)%nat) eqn:E; [|done].
  apply andb_true_iff in E as [[Hp Hd]%andb_true_iff _].
  cbn [previous_school destination_school with_score].
  by rewrite (consistent_not_conflicting _ _ Hp), (consistent_not_conflicting _ _ Hd).
Qed.

(** C7, amended. Post-processing touches only the confidence and the
    verified flag of a signal.  With three or more signals about the
    player, a signal that carries the majority value on both the previous
    and the destination school is marked verified and gains 0.1 (capped
    at 1.0).  With two or more signals, a signal that carries another
    value than the majority on either field loses 0.2 (floored at 0.3);
    this penalty does not wait for a third signal.  A signal that neither
    agrees (or has fewer than three signals) nor disagrees, and the only
    signal about a player, are left as they were. *)
Theorem consensus_adjusts_confidence news key item :
  NoDup (Alist.keys news) -> (key, item) ∈ news ->
  let n := length (signals news (player_name item)) in
  exists item',
    Alist.lookup key (_post_process_news_items news) = Some item'
    /\ (exists v c, item' = with_score v c item)
    /\ ((3 <= n)%nat -> agrees news item ->
        verified item' = true
        /\ confidence_score item' = Py.min 1.0 (confidence_score item + 0.1))
    /\ ((2 <= n)%nat -> disagrees news item ->
        verified item' = verified item
        /\ confidence_score item' = Py.max 0.3 (confidence_score item - 0.2))
    /\ ((n < 3)%nat \/ ~ agrees news item -> ~ disagrees news item -> item' = item)
    /\ ((n <= 1)%nat -> item' = item).
Proof.
  intros Hnd Hin n. eexists. split; [by apply post_process_lookup|].
  fold n. cbv zeta. rewrite adjust_cases. cbv zeta.
  pose proof (agrees_consistent news item) as Hagree.
  pose proof (differs_conflicting previous_school news item) as Hprev.
  pose proof (differs_conflicting destination_school news item) as Hdest.
  set (agree := consistent _ _ && consistent _ _) in *.
  set (conflict := conflicting _ _ || conflicting _ _).
  assert (Hdis : disagrees news item <-> conflict = true).
  { unfold disagrees, conflict. rewrite orb_true_iff. tauto. }
  assert (Hexcl : agree = true -> conflict = false).
  { unfold agree, conflict. intros [Hp Hd]%andb_true_iff.
    by rewrite (consistent_not_conflicting _ _ Hp), (consistent_not_conflicting _ _ Hd). }
  clearbody agree conflict. clear Hprev Hdest.
  split; [|split; [|split; [|split]]].
  - destruct (1 <? n)%nat; [|eexists _, _; symmetry; apply with_score_same].
    destruct (agree && (3 <=? n)%nat); [by eexists _, _|].
    destruct conflict; [by eexists _, _|].
    eexists _, _; symmetry; apply with_score_same.
  - intros H3 Ha%Hagree. rewrite Ha.
    destruct (Nat.ltb_spec 1 n); [|lia]. destruct (Nat.leb_spec 3 n); [|lia]. done.
  - intros H2 Hd%Hdis. rewrite Hd.
    destruct (Nat.ltb_spec 1 n); [|lia].
    destruct agree; [specialize (Hexcl eq_refl); congruence|]. done.
  - intros Hna Hnd'.
    assert (conflict = false) as -> by (destruct conflict; [by destruct Hnd'; apply Hdis|done]).
    assert (agree && (3 <=? n)%nat = false) as ->.
    { destruct Hna as [Hn|Hna].
      - destruct (Nat.leb_spec 3 n); [lia|]. apply andb_false_r.
      - destruct agree; [by destruct Hna; apply Hagree|done]. }
    by destruct (1 <? n)%nat.
  - intros Hn. destruct (Nat.ltb_spec 1 n); [lia|done].
Qed.

(** Three signals from North Carolina, two to Duke and one to Kentucky:
    the Duke signals gain 0.1 and are verified, the Kentucky one loses 0.2. *)
Lemma consensus_adjusts_confidence_witness :
  (exists item',
      Alist.lookup "n1" (_post_process_news_items three_signals) = Some item'
      /\ verified item' = true
      /\ confidence_score item' = Py.min 1.0 (0.8 + 0.1))
  /\ (exists item',
         Alist.lookup "n2" (_post_process_news_items three_signals) = Some item'
         /\ verified item' = false
         /\ confidence_score item' = Py.max 0.3 (0.8 - 0.2)).
Proof.
  assert (Hnd : NoDup (Alist.keys three_signals)).
  { cbn. repeat constructor; set_solver. }
  split.
  - destruct (consensus_adjusts_confidence three_signals "n1"
                (signal "n1" "2024-04-03T09:00:00" (Some "North Carolina")
                   (Some "Duke") 0.8).2 Hnd)
      as (item' & Hl & _ & Hboost & _); [set_solver|].
    exists item'. split; [exact Hl|]. apply Hboost; [vm_compute; lia|].
    split; [exists "North Carolina" | exists "Duke"];
      (split; [vm_compute; reflexivity | reflexivity]).
  - destruct (consensus_adjusts_confidence three_signals "n2"
                (signal "n2" "2024-04-02T09:00:00" (Some "North Carolina")
                   (Some "Kentucky") 0.8).2 Hnd)
      as (item' & Hl & _ & _ & Hpenalty & _); [set_solver|].
    exists item'. split; [exact Hl|]. apply Hpenalty; [vm_compute; lia|].
    right. exists "Duke", "Kentucky".
    split; [vm_compute; reflexivity|]. split; [reflexivity|]. split; discriminate.
Defined.

End NewsProperties.

(* ===================================================================== *)
(** * The store across consolidation passes and refresh cycles            *)
(* ===================================================================== *)

Section MoreAlistFacts.
Context {K V : Type} `{EqDecision K}.
Implicit Types (k : K) (v : V) (l : list (K * V)).

Lemma alist_set_keys_NoDup k v l :
  NoDup (Alist.keys l) -> NoDup (Alist.keys (Alist.set k v l)).
Proof.
  intros Hnd. rewrite alist_keys_set. case_bool_decide; [done|].
  apply NoDup_app. split; [done|]. split; [set_solver | apply NoDup_singleton].
Qed.

Lemma alist_remove_all_sublist (ks : list K) l : foldr Alist.remove l ks `sublist_of` l.
Proof.
  induction ks as [|k ks IH]; cbn; [done|].
  etrans; [apply sublist_filter | done].
Qed.

Lemma alist_remove_all_NoDup (ks : list K) l :
  NoDup (Alist.keys l) -> NoDup (Alist.keys (foldr Alist.remove l ks)).
Proof.
  intros Hnd. eapply sublist_NoDup; [done|].
  unfold Alist.keys. apply fmap_sublist, alist_remove_all_sublist.
Qed.



End MoreAlistFacts.

Section StoreProperties.
Import Orchestrator Spec StoreSpec Api.

Implicit Types (clk : nat -> Instant) (ps : Pass) (st : State).
Implicit Types (s : DataSource) (k : string) (data : list Raw.t) (r : Raw.t).
Implicit Types (p : TransferPlayer.t).

Lemma merge_keeps_identity p r s (now : string) :
  TransferPlayer.player_id (_update_player_from_source p r s now)
  = TransferPlayer.player_id p
  /\ TransferPlayer.name (_update_player_from_source p r s now) = TransferPlayer.name p
  /\ TransferPlayer.sources (_update_player_from_source p r s now)
     = TransferPlayer.sources p
  /\ TransferPlayer.last_updated (_update_player_from_source p r s now)
     = <[s := now]> (TransferPlayer.last_updated p).
Proof.
  unfold _update_player_from_source. by destruct (update_rankings p r s).
Qed.

Lemma merge_record_well_keyed clk s (name : string) r ps :
  well_keyed (store ps) -> well_keyed (store (merge_record clk s name r ps)).
Proof.
  intros [Hnd Hall]. split; cbn [store merge_record].
  { by apply alist_set_keys_NoDup. }
  intros k p [[= -> ->]|[Hin _]]%alist_set_elem_inv; [|by apply Hall|done].
  destruct (merge_keeps_identity
              match Alist.lookup (_generate_player_id name (Raw.previous_school r))
                      (store ps) with
              | Some player =>
                  if bool_decide (s ∈ TransferPlayer.sources player) then player
                  else TransferPlayer.append_source s player
              | None =>
                  TransferPlayer.create
                    (_generate_player_id name (Raw.previous_school r)) name [s]
              end r s (isoformat (clk (reads ps)))) as (-> & _ & -> & _).
  destruct (Alist.lookup _ (store ps)) as [player|] eqn:E.
  - apply alist_lookup_elem, Hall in E as [Hid Hsrc].
    case_bool_decide; cbn; [done|]. split; [done|].
    apply NoDup_app. split; [done|]. split; [set_solver | apply NoDup_singleton].
  - cbn. split; [done | apply NoDup_singleton].
Qed.

Lemma merge_records_well_keyed clk s data ps :
  well_keyed (store ps) -> well_keyed (store (merge_records clk s data ps)).
Proof.
  revert ps. induction data as [|r data IH]; intros ps H; cbn; [done|].
  destruct (Raw.name r); [|done]. by apply IH, merge_record_well_keyed.
Qed.

Lemma consolidate_sources_well_keyed clk (metrics : gmap DataSource AgentMetrics.t)
    (agents : list (DataSource * list Raw.t)) ps :
  well_keyed (store ps) ->
  well_keyed (store (consolidate_sources clk metrics agents ps).1).
Proof.
  revert ps. induction agents as [|[s d] agents IH]; intros ps H; cbn; [done|].
  destruct (metrics !! s) as [m|]; [|done].
  destruct (skipped m); apply IH; [done|]. by apply merge_records_well_keyed.
Qed.

Lemma consolidate_data_well_keyed clk st :
  well_keyed (players st) -> well_keyed (players (consolidate_data clk st).1).
Proof.
  intros H. unfold consolidate_data.
  pose proof (consolidate_sources_well_keyed clk (metrics st) (agents st)
                (mkPass (players st) ∅ 0) H) as [Hnd Hall].
  destruct (consolidate_sources _ _ _ _) as [ps [e|]]; cbn [fst players] in *.
  - by split.
  - split; [by apply alist_remove_all_NoDup|].
    intros k p Hin. apply Hall.
    eapply elem_of_sublist; [exact Hin | apply alist_remove_all_sublist].
Qed.

(** X1. A consolidation pass keeps the store keyed by identity: no key
    twice, every player under its own [player_id], no source listed twice
    for a player. *)
Theorem consolidation_keeps_store_keyed clk st :
  well_keyed (players st) -> well_keyed (players (consolidate_data clk st).1).
Proof. apply consolidate_data_well_keyed. Qed.

Lemma consolidation_keeps_store_keyed_witness :
  well_keyed (players (consolidate_data Examples.frozen_clock Examples.amy_and_bo).1).
Proof.
  apply consolidation_keeps_store_keyed. split.
  - vm_compute. repeat constructor; set_solver.
  - intros k p Hin. vm_compute in Hin.
    apply elem_of_cons in Hin as [Heq|Heq%list_elem_of_singleton];
      injection Heq as -> ->;
      (split; [reflexivity | vm_compute; repeat constructor; set_solver]).
Defined.

(** ** Reachable states *)

Lemma reachable_invariant st :
  reachable st ->
  configured st
  /\ Alist.keys (agents st) = [ON3; RIVALS; TWO47]
  /\ well_keyed (players st).
Proof.
  induction 1 as [interval|st clk s scraped _ (Hconf & Hkeys & Hstore)].
  - split; [apply init_configured|]. split; [done|].
    split; [constructor | intros k p Hin; by apply elem_of_nil in Hin].
  - destruct (decide (s ∈ Alist.keys (agents st))) as [Hs|Hs].
    + destruct (after_refresh_configured clk s scraped st Hconf Hs) as [Hc' Hk'].
      split; [done|]. split; [by rewrite Hk'|].
      destruct (proj2 Hconf s Hs) as [m Hm]. destruct scraped as [data|e].
      * rewrite (refresh_agent_return clk s data st m) by done. cbn [after].
        by apply consolidate_data_well_keyed.
      * by rewrite (refresh_agent_raise clk s e st m).
    + by rewrite refresh_agent_unknown_source.
Qed.

(** X2. Every state the orchestrator can reach from its initial state by
    refresh cycles (whatever their outcome) has exactly the agents ON3,
    Rivals and 247Sports, each with its metrics entry, and a store keyed
    by identity. *)
Theorem reachable_states_are_well_formed st :
  reachable st ->
  configured st
  /\ Alist.keys (agents st) = [ON3; RIVALS; TWO47]
  /\ well_keyed (players st).
Proof. apply reachable_invariant. Qed.

Lemma reachable_states_are_well_formed_witness :
  configured Examples.on3_failed_rivals_succeeded
  /\ Alist.keys (agents Examples.on3_failed_rivals_succeeded) = [ON3; RIVALS; TWO47]
  /\ well_keyed (players Examples.on3_failed_rivals_succeeded).
Proof.
  apply reachable_states_are_well_formed.
  do 4 apply reachable_refresh. apply reachable_init.
Defined.



End StoreProperties.

(* ===================================================================== *)
(** * More properties of the query engine                                 *)
(* ===================================================================== *)

Section QueryFilters.
Import Orchestrator Spec StoreSpec Api.

Implicit Types (st : State) (query : PortalQuery.t) (p : TransferPlayer.t).
Implicit Types (l : list TransferPlayer.t).

Lemma elem_of_List_filter {A : Type} (f : A -> bool) (l : list A) (x : A) :
  x ∈ List.filter f l <-> x ∈ l /\ f x = true.
Proof. rewrite !list_elem_of_In. apply filter_In. Qed.

Lemma opt_filter_elem {A B : Type} (o : option A) (f : A -> B -> bool)
    (l : list B) (x : B) :
  x ∈ match o with Some v => List.filter (f v) l | None => l end
  <-> x ∈ l /\ forall v, o = Some v -> f v x = true.
Proof.
  destruct o as [v|]; [rewrite elem_of_List_filter|].
  - split; [intros [? ?]; split; [done|]; by intros ? [= <-] | intros [? H]; auto].
  - split; [intros ?; split; [done|]; by intros | by intros [? _]].
Qed.

Lemma opt_filter_when_elem {A B : Type} (o : option A) (c : A -> bool)
    (f : A -> B -> bool) (l : list B) (x : B) :
  x ∈ match o with Some v => filter_when (c v) (f v) l | None => l end
  <-> x ∈ l /\ forall v, o = Some v -> c v = true -> f v x = true.
Proof.
  destruct o as [v|].
  - unfold filter_when. destruct (c v) eqn:E; [rewrite elem_of_List_filter|].
    + split; [intros [? ?]; split; [done|]; by intros ? [= <-] | intros [? H]; auto].
    + split; [intros ?; split; [done|]; intros ? [= <-]; congruence | by intros [? _]].
  - split; [intros ?; split; [done|]; by intros | by intros [? _]].
Qed.

Lemma at_least_true (lo : Z) (value : option Z) :
  at_least lo value = true
  <-> exists c, value = Some c /\ c <> 0%Z /\ (lo <= c)%Z.
Proof.
  unfold at_least. destruct value as [c|]; [|naive_solver]. cbn.
  rewrite andb_true_iff, negb_true_iff, Z.eqb_neq, Z.leb_le. naive_solver.
Qed.

Lemma at_most_true (hi : Z) (value : option Z) :
  at_most hi value = true
  <-> exists c, value = Some c /\ c <> 0%Z /\ (c <= hi)%Z.
Proof.
  unfold at_most. destruct value as [c|]; [|naive_solver]. cbn.
  rewrite andb_true_iff, negb_true_iff, Z.eqb_neq, Z.leb_le. naive_solver.
Qed.

Lemma source_filter_true (source : option DataSource) p :
  (negb (bool_decide (source = Some ALL)) = true ->
   match source with
   | Some s => bool_decide (s ∈ TransferPlayer.sources p)
   | None => false
   end = true)
  <-> source = Some ALL
      \/ exists s, source = Some s /\ s ∈ TransferPlayer.sources p.
Proof.
  case_bool_decide as Hall; cbn.
  - naive_solver.
  - destruct source as [s|]; [rewrite bool_decide_eq_true|]; naive_solver.
Qed.

(** The filtering stage keeps exactly the players that pass every filter. *)
Lemma apply_filters_elem query l p :
  p ∈ apply_filters query l <-> p ∈ l /\ passes query p.
Proof.
  unfold apply_filters, passes. cbv zeta.
  etrans; [apply (opt_filter_elem (PortalQuery.max_ranking query)
                    (fun v q => at_most v (TransferPlayer.composite_ranking q)))|].
  etrans; [apply and_iff_compat_r,
             (opt_filter_elem (PortalQuery.min_ranking query)
                (fun v q => at_least v (TransferPlayer.composite_ranking q)))|].
  etrans; [apply and_iff_compat_r, and_iff_compat_r,
             (opt_filter_elem (PortalQuery.min_ppg query) scores_at_least)|].
  etrans; [do 3 apply and_iff_compat_r;
           apply (opt_filter_when_elem (PortalQuery.status query)
                    (fun v => Py.truthy (Some v))
                    (fun v q => matches v (TransferPlayer.status q)))|].
  etrans; [do 4 apply and_iff_compat_r;
           apply (opt_filter_when_elem (PortalQuery.school query)
                    (fun v => Py.truthy (Some v))
                    (fun v q => matches v (TransferPlayer.previous_school q)
                                || matches v (TransferPlayer.destination_school q)))|].
  etrans; [do 5 apply and_iff_compat_r;
           apply (opt_filter_when_elem (PortalQuery.position query)
                    (fun v => Py.truthy (Some v))
                    (fun v q => matches v (TransferPlayer.position q)))|].
  unfold filter_when at 1.
  pose proof (source_filter_true (PortalQuery.source query) p) as Hsrc.
  assert (Hne : forall v : string, Py.truthy (Some v) = true <-> v <> "")
    by apply truthy_nonempty.
  destruct (negb (bool_decide (PortalQuery.source query = Some ALL))) eqn:Ec;
    [rewrite elem_of_List_filter|];
    (split;
     [ intros ((((((Hl & Hp) & Hsc) & Hst) & Hppg) & Hmin) & Hmax);
       (split; [try (destruct Hl as [Hl _]); exact Hl|]);
       (split; [apply Hsrc; intros; try (destruct Hl as [_ Hl]); first [exact Hl | done]|]);
       (split; [intros v ? ?%Hne; by apply Hp|]);
       (split; [intros v ? ?%Hne; apply orb_true_iff; by apply Hsc|]);
       (split; [intros v ? ?%Hne; by apply Hst|]);
       (split; [done|]);
       (split; [intros v ?; by apply at_least_true, Hmin
               |intros v ?; by apply at_most_true, Hmax])
     | intros (Hl & Hs & Hp & Hsc & Hst & Hppg & Hmin & Hmax);
       (split; [|intros v ?; by apply at_most_true, Hmax]);
       (split; [|intros v ?; by apply at_least_true, Hmin]);
       (split; [|done]);
       (split; [|intros v ? ?%Hne; by apply Hst]);
       (split; [|intros v ? ?%Hne; apply orb_true_iff; by apply Hsc]);
       (split; [|intros v ? ?%Hne; by apply Hp]);
       first [ split; [exact Hl | by apply Hsrc] | exact Hl ] ]).
Qed.

Lemma query_players_sublist st query :
  query_players st query `sublist_of` selected st query.
Proof.
  unfold query_players, selected. destruct (players st) as [|e l'] eqn:E.
  { apply sublist_nil_l. }
  rewrite <- E.
  destruct (PortalQuery.limit query) as [n|]; [|done].
  destruct (Py.truthy_int (Some n)); [|done].
  unfold Py.slice_to. destruct (0 <=? n)%Z; apply sublist_take.
Qed.

Lemma query_complete_without_limit st query :
  PortalQuery.limit query = None \/ PortalQuery.limit query = Some 0%Z ->
  forall p, p ∈ Alist.values (players st) -> passes query p ->
    p ∈ query_players st query.
Proof.
  intros Hlimit p Hin Hpass.
  assert (Hsel : p ∈ selected st query).
  { unfold selected. rewrite sort_permutation. by apply apply_filters_elem. }
  unfold query_players. destruct (players st) as [|e l'] eqn:E.
  { by apply elem_of_nil in Hin. }
  rewrite <- E. fold (selected st query). by destruct Hlimit as [->| ->].
Qed.

(** X4. A query returns only players of the store that pass every filter
    it sets (source membership, substring matches on position, school and
    status, minimum points per game, ranking bounds; a ranking bound
    excludes every player without a composite ranking).  When the limit
    is [None] or 0 it returns every such player; a positive limit bounds
    the length of the result. *)
Theorem query_returns_matching_players st query :
  (forall p, p ∈ query_players st query ->
     p ∈ Alist.values (players st) /\ passes query p)
  /\ (PortalQuery.limit query = None \/ PortalQuery.limit query = Some 0%Z ->
      forall p, p ∈ Alist.values (players st) -> passes query p ->
        p ∈ query_players st query)
  /\ (forall n : Z, PortalQuery.limit query = Some n -> (0 < n)%Z ->
      (length (query_players st query) <= Z.to_nat n)%nat).
Proof.
  split; [|split].
  - intros p Hp. apply apply_filters_elem.
    rewrite <- (sort_permutation player_ltb). fold (selected st query).
    eapply elem_of_sublist; [exact Hp | apply query_players_sublist].
  - apply query_complete_without_limit.
  - intros n Hn Hpos. unfold query_players. rewrite Hn.
    destruct (players st) as [|e l'] eqn:E; [cbn; lia|]. rewrite <- E.
    unfold Py.truthy_int. destruct (Z.eqb_spec n 0) as [->|_]; [lia|]. cbn [negb].
    unfold Py.slice_to. destruct (Z.leb_spec 0 n); [|lia].
    rewrite length_take. lia.
Qed.

Lemma query_returns_matching_players_witness :
  (length (query_players Examples.three_players
             (PortalQuery.with_limit (Some 2%Z) PortalQuery.default)) <= 2)%nat
  /\ forall p, p ∈ Alist.values (players Examples.three_players) ->
       p ∈ query_players Examples.three_players query_all.
Proof.
  destruct (query_returns_matching_players Examples.three_players
              (PortalQuery.with_limit (Some 2%Z) PortalQuery.default))
    as (_ & _ & Hbound).
  destruct (query_returns_matching_players Examples.three_players query_all)
    as (_ & Hall & _).
  split.
  - apply (Hbound 2%Z); [reflexivity | lia].
  - intros p Hp. apply Hall; [by left | exact Hp|].
    split; [by left|]. repeat split; intros v Hv; discriminate Hv.
Defined.

Lemma take_unranked_first (n : nat) l : unranked_first l -> unranked_first (take n l).
Proof.
  intros (us & rs & -> & Hus & Hrs).
  exists (take n us), (take (n - length us) rs).
  split; [apply take_app|]. split; by apply Forall_take.
Qed.

(** X5. Whatever the store, the filters and the limit, the players
    without a composite ranking (None or 0) stand in front of all ranked
    players in the result of a query. *)
Theorem query_lists_unranked_players_first st query :
  unranked_first (query_players st query).
Proof.
  unfold query_players. destruct (players st) as [|e l'] eqn:E.
  { exists [], []. by repeat constructor. }
  rewrite <- E. fold (selected st query).
  pose proof (selected_unranked_first st query) as Hsel.
  destruct (PortalQuery.limit query) as [n|]; [|done].
  destruct (Py.truthy_int (Some n)); [|done].
  unfold Py.slice_to. destruct (0 <=? n)%Z; by apply take_unranked_first.
Qed.

End QueryFilters.

(* ===================================================================== *)
(** * Looking up what a refresh merged                                    *)
(* ===================================================================== *)

Section LookupProperties.
Import Orchestrator Spec StoreSpec Api.

Implicit Types (clk : nat -> Instant) (ps : Pass) (st : State).
Implicit Types (s : DataSource) (k : string) (data : list Raw.t) (r : Raw.t).
Implicit Types (p : TransferPlayer.t).














Lemma consolidate_data_interval clk st :
  refresh_interval (consolidate_data clk st).1 = refresh_interval st.
Proof.
  unfold consolidate_data.
  by destruct (consolidate_sources _ _ _ _) as [ps [e|]].
Qed.

Lemma record_failure_frame s s' st :
  s' <> s ->
  metrics (record_failure s st) !! s' = metrics st !! s'
  /\ agents (record_failure s st) = agents st
  /\ refresh_interval (record_failure s st) = refresh_interval st.
Proof.
  intros Hne. unfold record_failure.
  destruct (metrics st !! s); cbn; [by rewrite lookup_insert_ne | done].
Qed.

(** X9. A refresh cycle of one source is a frame for the others: whatever
    its outcome, it leaves the metrics entry and the cached batch of every
    other source, and the refresh interval, as they were. *)
Theorem refresh_leaves_other_sources_alone clk s (scraped : Py.result (list Raw.t))
    st st' (ok : bool) s' :
  refresh_agent clk s scraped st = Py.Ok (st', ok) -> s' <> s ->
  metrics st' !! s' = metrics st !! s'
  /\ Alist.lookup s' (agents st') = Alist.lookup s' (agents st)
  /\ refresh_interval st' = refresh_interval st.
Proof.
  intros H Hne. unfold refresh_agent, refresh_begin in H.
  destruct (Alist.lookup s (agents st)) as [c|]; [|discriminate].
  destruct (metrics st !! s) as [m|] eqn:Hm; [|discriminate].
  injection H as H. unfold refresh_finish in H. cbn [metrics with_metrics] in H.
  rewrite lookup_insert_eq in H.
  destruct scraped as [data|e].
  - match type of H with
    | context [consolidate_data ?c ?x] =>
        destruct (consolidate_data_frame c x) as [Hag Hme];
        pose proof (consolidate_data_interval c x) as Hri;
        destruct (consolidate_data c x) as [st3 [e|]]
    end; cbn [fst] in Hag, Hme, Hri; injection H as <- _.
    + destruct (record_failure_frame s s' st3 Hne) as (-> & -> & ->).
      rewrite Hme, Hag, Hri. cbn. rewrite !lookup_insert_ne by done.
      by rewrite alist_lookup_set, decide_False.
    + rewrite Hme, Hag, Hri. cbn. rewrite !lookup_insert_ne by done.
      by rewrite alist_lookup_set, decide_False.
  - injection H as <- _.
    match goal with
    | |- context [record_failure s ?x] =>
        destruct (record_failure_frame s s' x Hne) as (-> & -> & ->)
    end.
    cbn. by rewrite lookup_insert_ne.
Qed.

Lemma refresh_leaves_other_sources_alone_witness :
  AgentMetrics.status <$> metrics Examples.on3_failed_rivals_succeeded !! TWO47
  = AgentMetrics.status <$> metrics Examples.amy_and_bo !! TWO47.
Proof.
  pose (st1 := after Examples.amy_and_bo
                 (refresh_agent Examples.frozen_clock ON3 (Py.Raise Py.ScrapeError)
                    Examples.amy_and_bo)).
  destruct (refresh_agent Examples.frozen_clock ON3 (Py.Raise Py.ScrapeError)
              Examples.amy_and_bo) as [[sta oka]|] eqn:Ea; [|discriminate Ea].
  destruct (refresh_agent Examples.frozen_clock RIVALS
              (Py.Ok [Examples.ranked "Bo" 3]) sta) as [[stb okb]|] eqn:Eb;
    [|vm_compute in Ea; injection Ea as <- _; discriminate Eb].
  destruct (refresh_leaves_other_sources_alone _ _ _ _ _ _ TWO47 Ea) as [Ha _];
    [discriminate|].
  destruct (refresh_leaves_other_sources_alone _ _ _ _ _ _ TWO47 Eb) as [Hb _];
    [discriminate|].
  rewrite <- Ha, <- Hb. vm_compute in Ea. injection Ea as <- _.
  vm_compute in Eb. injection Eb as <- _. reflexivity.
Defined.

End LookupProperties.

(* ===================================================================== *)
(** * The order of a query's result                                       *)
(* ===================================================================== *)

Section QueryOrder.
Import Orchestrator Spec StoreSpec.

Lemma ascii_compare_lt_trans (a b c : ascii) :
  Ascii.compare a b = Lt -> Ascii.compare b c = Lt -> Ascii.compare a c = Lt.
Proof. unfold Ascii.compare. rewrite !N.compare_lt_iff. lia. Qed.

Lemma string_compare_lt_trans (a b c : string) :
  String.compare a b = Lt -> String.compare b c = Lt -> String.compare a c = Lt.
Proof.
  revert b c. induction a as [|x a IH]; intros [|y b] [|z c]; cbn; try done.
  destruct (Ascii.compare x y) eqn:Exy; [|clear IH|done].
  - apply Ascii.compare_eq_iff in Exy as ->.
    destruct (Ascii.compare y z); [apply IH|done|done].
  - destruct (Ascii.compare y z) eqn:Eyz; [| |done].
    + apply Ascii.compare_eq_iff in Eyz as <-. by rewrite Exy.
    + by rewrite (ascii_compare_lt_trans x y z).
Qed.

Lemma string_compare_gt (a b : string) :
  String.compare a b = Gt <-> String.compare b a = Lt.
Proof.
  rewrite (String.compare_antisym b a). destruct (String.compare a b); cbn; naive_solver.
Qed.

Lemma string_ltb_asym (a b : string) : String.ltb a b = true -> String.ltb b a = false.
Proof.
  unfold String.ltb. rewrite (String.compare_antisym b a).
  by destruct (String.compare a b).
Qed.

Lemma string_leb_trans (a b c : string) :
  String.ltb b a = false -> String.ltb c b = false -> String.ltb c a = false.
Proof.
  unfold String.ltb.
  destruct (String.compare b a) eqn:Eba; [|done|]; intros _.
  { apply String.compare_eq_iff in Eba as ->. done. }
  destruct (String.compare c b) eqn:Ecb; [|done|]; intros _.
  { apply String.compare_eq_iff in Ecb as ->. by rewrite Eba. }
  apply string_compare_gt in Eba, Ecb.
  pose proof (string_compare_lt_trans _ _ _ Eba Ecb) as Hac.
  apply string_compare_gt in Hac. by rewrite Hac.
Qed.

Lemma rank_key_eqb_eq (a b : rank_key) : rank_key_eqb a b = true <-> a = b.
Proof.
  destruct a as [|x], b as [|y]; cbn; try done.
  rewrite Z.eqb_eq. split; [by intros -> | by intros [= ->]].
Qed.

Lemma key_ltb_asym (a b : rank_key * string) : key_ltb a b = true -> key_ltb b a = false.
Proof.
  destruct a as [ra na], b as [rb nb]. unfold key_ltb. cbn [fst snd].
  destruct (rank_key_eqb ra rb) eqn:E.
  - apply rank_key_eqb_eq in E as ->.
    rewrite (proj2 (rank_key_eqb_eq rb rb) eq_refl). apply string_ltb_asym.
  - destruct (rank_key_eqb rb ra) eqn:E'.
    { apply rank_key_eqb_eq in E' as ->.
      by rewrite (proj2 (rank_key_eqb_eq ra ra) eq_refl) in E. }
    destruct ra as [|x], rb as [|y]; cbn; try done.
    rewrite Z.ltb_lt, Z.ltb_ge. lia.
Qed.

Lemma key_leb_trans (a b c : rank_key * string) :
  key_ltb b a = false -> key_ltb c b = false -> key_ltb c a = false.
Proof.
  destruct a as [ra na], b as [rb nb], c as [rc nc]. unfold key_ltb. cbn [fst snd].
  destruct (rank_key_eqb rb ra) eqn:Eba.
  - apply rank_key_eqb_eq in Eba as ->.
    destruct (rank_key_eqb rc ra) eqn:Eca; [apply string_leb_trans | done].
  - destruct (rank_key_eqb rc rb) eqn:Ecb.
    + apply rank_key_eqb_eq in Ecb as ->. by rewrite Eba.
    + destruct (rank_key_eqb rc ra) eqn:Eca.
      * apply rank_key_eqb_eq in Eca as ->.
        destruct ra as [|x], rb as [|y]; cbn in *; try done.
        rewrite Z.eqb_neq in Eba. rewrite !Z.ltb_ge. lia.
      * destruct ra as [|x], rb as [|y], rc as [|z]; cbn in *; try done.
        rewrite !Z.ltb_ge. lia.
Qed.

(** The insertion keeps a list sorted, for any strict order [lt] whose
    complement is transitive. *)
Lemma insert_sorted_sorted {A : Type} (lt : A -> A -> bool) (x : A) (l : list A) :
  (forall a b, lt a b = true -> lt b a = false) ->
  (forall a b c, lt b a = false -> lt c b = false -> lt c a = false) ->
  StronglySorted (fun a b => lt b a = false) l ->
  StronglySorted (fun a b => lt b a = false) (Py.insert_sorted lt x l).
Proof.
  intros Hasym Htrans. induction 1 as [|y l Hl IH Hy]; cbn.
  - by repeat constructor.
  - destruct (lt y x) eqn:E.
    + constructor; [done|].
      rewrite insert_sorted_permutation. constructor; [by apply Hasym | done].
    + constructor; [by constructor|]. constructor; [done|].
      eapply Forall_impl; [exact Hy|]. intros z Hz. cbn in Hz. by eapply Htrans.
Qed.

Lemma sort_sorted {A : Type} (lt : A -> A -> bool) (l : list A) :
  (forall a b, lt a b = true -> lt b a = false) ->
  (forall a b c, lt b a = false -> lt c b = false -> lt c a = false) ->
  StronglySorted (fun a b => lt b a = false) (Py.sort lt l).
Proof.
  intros Hasym Htrans. induction l as [|x l IH]; cbn; [constructor|].
  by apply insert_sorted_sorted.
Qed.

Lemma StronglySorted_take {A : Type} (R : A -> A -> Prop) (n : nat) (l : list A) :
  StronglySorted R l -> StronglySorted R (take n l).
Proof.
  intros H. revert n. induction H as [|x l Hl IH Hx]; intros [|n]; cbn;
    try constructor; [apply IH|]. by apply Forall_take.
Qed.

Lemma selected_sorted st query : StronglySorted may_precede (selected st query).
Proof.
  unfold selected, may_precede, player_ltb.
  apply (sort_sorted (fun p q => key_ltb (sort_key p) (sort_key q))).
  - intros a b. apply key_ltb_asym.
  - intros a b c. apply key_leb_trans.
Qed.

Lemma query_players_sorted st query : StronglySorted may_precede (query_players st query).
Proof.
  unfold query_players. destruct (players st) as [|e l'] eqn:E; [constructor|].
  rewrite <- E. fold (selected st query).
  pose proof (selected_sorted st query) as Hsel.
  destruct (PortalQuery.limit query) as [n|]; [|done].
  destruct (Py.truthy_int (Some n)); [|done].
  unfold Py.slice_to. destruct (0 <=? n)%Z; by apply StronglySorted_take.
Qed.

Lemma StronglySorted_lookup {A : Type} (R : A -> A -> Prop) (l : list A) i j a b :
  StronglySorted R l -> (i < j)%nat -> l !! i = Some a -> l !! j = Some b -> R a b.
Proof.
  intros H. revert i j. induction H as [|x l Hl IH Hx]; intros i j Hij Hi Hj; [done|].
  destruct j as [|j]; [lia|]. destruct i as [|i].
  - cbn in Hi, Hj. injection Hi as <-.
    rewrite Forall_forall in Hx. apply Hx. by eapply list_elem_of_lookup_2.
  - cbn in Hi, Hj. eapply (IH i j); [lia|done|done].
Qed.

(** X10. The result of a query is sorted by the key
    [(-(composite_ranking or inf), name)]: of two players of the result,
    the earlier never has the larger key.  For two ranked players this
    means that the earlier one has the larger or equal composite ranking
    and, when the rankings are equal, a name that is not greater. *)
Theorem query_result_is_sorted st query (i j : nat) (p q : TransferPlayer.t) :
  query_players st query !! i = Some p ->
  query_players st query !! j = Some q ->
  (i < j)%nat ->
  may_precede p q
  /\ forall a b : Z,
       TransferPlayer.composite_ranking p = Some a -> a <> 0%Z ->
       TransferPlayer.composite_ranking q = Some b -> b <> 0%Z ->
       (b <= a)%Z
       /\ (a = b ->
           String.ltb (TransferPlayer.name q) (TransferPlayer.name p) = false).
Proof.
  intros Hi Hj Hij.
  pose proof (StronglySorted_lookup _ _ _ _ _ _ (query_players_sorted st query)
                Hij Hi Hj) as Hpq.
  split; [done|]. intros a b Ha Ha0 Hb Hb0.
  unfold may_precede, player_ltb, key_ltb, sort_key in Hpq. cbn [fst snd] in Hpq.
  rewrite Ha, Hb in Hpq. unfold rank_key_of, Py.truthy_int in Hpq.
  rewrite (proj2 (Z.eqb_neq a 0) Ha0), (proj2 (Z.eqb_neq b 0) Hb0) in Hpq.
  cbn [negb rank_key_eqb rank_key_ltb] in Hpq.
  destruct (Z.eqb_spec (- b) (- a)) as [Heq|Hne].
  - split; [lia|]. by intros _.
  - apply Z.ltb_ge in Hpq. split; [lia|]. intros ->. lia.
Qed.

Lemma query_result_is_sorted_witness :
  exists p q : TransferPlayer.t,
    query_players Examples.three_players PortalQuery.default !! 1%nat = Some p
    /\ query_players Examples.three_players PortalQuery.default !! 2%nat = Some q
    /\ may_precede p q.
Proof.
  assert (H1 : is_Some (query_players Examples.three_players PortalQuery.default
                          !! 1%nat)).
  { vm_compute. by eexists. }
  assert (H2 : is_Some (query_players Examples.three_players PortalQuery.default
                          !! 2%nat)).
  { vm_compute. by eexists. }
  destruct H1 as [p Hp], H2 as [q Hq]. exists p, q.
  split; [done|]. split; [done|].
  apply (query_result_is_sorted Examples.three_players PortalQuery.default 1 2 p q Hp Hq).
  lia.
Defined.

End QueryOrder.

(* ===================================================================== *)
(** * Bounds kept by the post-processing of news                          *)
(* ===================================================================== *)

Section NewsBounds.
Import NewsMonitor NewsSpec.

Lemma float_ltb_leb (x y : float) : PrimFloat.ltb x y = true -> PrimFloat.leb x y = true.
Proof.
  rewrite FloatAxioms.ltb_spec, FloatAxioms.leb_spec.
  unfold SpecFloat.SFltb, SpecFloat.SFleb.
  destruct (SpecFloat.SFcompare _ _) as [[]|]; congruence.
Qed.

(** [min(1.0, x)] is at most 1.0 and [max(0.3, x)] at least 0.3 for every
    binary64 value [x], infinities and NaN included. *)
Lemma min_one_bound (x : float) : PrimFloat.leb (Py.min 1.0 x) 1.0 = true.
Proof.
  unfold Py.min. destruct (PrimFloat.ltb x 1.0) eqn:E; [by apply float_ltb_leb | reflexivity].
Qed.

Lemma max_floor_bound (x : float) : PrimFloat.leb 0.3 (Py.max 0.3 x) = true.
Proof.
  unfold Py.max. destruct (PrimFloat.ltb 0.3 x) eqn:E; [by apply float_ltb_leb | reflexivity].
Qed.

Lemma post_process_keys news :
  Alist.keys (_post_process_news_items news) = Alist.keys news.
Proof.
  unfold _post_process_news_items, Alist.keys.
  rewrite <- list_fmap_compose. by apply list_fmap_ext.
Qed.

(** X11. Post-processing keeps the keys of the news store and their
    order, and each item is either left as it was, or marked verified
    with a confidence of at most 1.0, or keeps its verified flag with a
    confidence of at least 0.3 - whatever its confidence was, infinities
    and NaN included. *)
Theorem post_processing_bounds_confidence news key item :
  NoDup (Alist.keys news) -> (key, item) ∈ news ->
  Alist.keys (_post_process_news_items news) = Alist.keys news
  /\ exists item',
       Alist.lookup key (_post_process_news_items news) = Some item'
       /\ (item' = item
           \/ (verified item' = true
               /\ PrimFloat.leb (confidence_score item') 1.0 = true)
           \/ (verified item' = verified item
               /\ PrimFloat.leb 0.3 (confidence_score item') = true)).
Proof.
  intros Hnd Hin. split; [apply post_process_keys|].
  eexists. split; [by apply post_process_lookup|]. cbv zeta.
  destruct (1 <? _)%nat; [|by left].
  rewrite adjust_cases. cbv zeta.
  destruct (_ && (3 <=? _)%nat).
  - right. left. split; [done|]. apply min_one_bound.
  - destruct (_ || _); [|by left].
    right. right. split; [done|]. apply max_floor_bound.
Qed.

Lemma post_processing_bounds_confidence_witness :
  Alist.keys (_post_process_news_items three_signals) = Alist.keys three_signals.
Proof.
  destruct three_signals as [|[key item] rest] eqn:E; [discriminate E|].
  rewrite <- E.
  apply (post_processing_bounds_confidence three_signals key item).
  - vm_compute. repeat constructor; set_solver.
  - rewrite E. apply list_elem_of_here.
Defined.

End NewsBounds.

(* ===================================================================== *)
(** * Properties of the integration of news                               *)
(* ===================================================================== *)

Section NewsIntegrationProperties.
Import Py Orchestrator NewsMonitor NewsIntegration.

Implicit Types (found : nat -> string -> result (list TransferNewsItem)).
Implicit Types (p : TransferPlayer.t) (item : TransferNewsItem).

Lemma has_event_true event item : has_event event item = true <-> event ∈ event_types item.
Proof. unfold has_event. apply bool_decide_eq_true. Qed.

Lemma gaps_filled_refl found p : gaps_filled found p p.
Proof. split; [by destruct p|]. by repeat split. Qed.

Lemma gaps_filled_name found p p' :
  gaps_filled found p p' -> TransferPlayer.name p' = TransferPlayer.name p.
Proof. intros [-> _]. reflexivity. Qed.

Lemma gaps_filled_trans found p p1 p2 :
  gaps_filled found p p1 -> gaps_filled found p1 p2 -> gaps_filled found p p2.
Proof.
  intros H1 H2. pose proof (gaps_filled_name _ _ _ H1) as Hname.
  destruct H1 as (E1 & Hp1 & Hd1 & Hpc1 & Hdc1).
  destruct H2 as (E2 & Hp2 & Hd2 & Hpc2 & Hdc2).
  rewrite Hname in Hpc2, Hdc2.
  split; [|split; [|split; [|split]]].
  - rewrite E2 at 1. rewrite E1 at 1. reflexivity.
  - intros Hset. rewrite Hp2; [by apply Hp1|]. by rewrite Hp1.
  - intros Hset. rewrite Hd2; [by apply Hd1|]. by rewrite Hd1.
  - intros Hne.
    destruct (decide (TransferPlayer.previous_school p2 = TransferPlayer.previous_school p1))
      as [Heq|Hne2]; [|by apply Hpc2].
    rewrite Heq in *. by apply Hpc1.
  - intros Hne.
    destruct (decide (TransferPlayer.destination_school p2
                      = TransferPlayer.destination_school p1)) as [Heq|Hne2];
      [|by apply Hdc2].
    rewrite Heq in *. by apply Hdc1.
Qed.

(** One news item fills gaps only. *)
Lemma enrich_gaps_filled found p item :
  reported found (TransferPlayer.name p) item -> gaps_filled found p (enrich p item).
Proof.
  intros Hrep. unfold enrich.
  destruct (has_event COMMITMENT item || has_event PORTAL_ENTRY item) eqn:Hmove;
    [|apply gaps_filled_refl].
  assert (Hrm : reports_move item).
  { apply orb_true_iff in Hmove as [H|H]; apply has_event_true in H; [by left | by right]. }
  eapply gaps_filled_trans with
    (p1 := if PrimFloat.leb 0.7 (confidence_score item)
              && negb (truthy (TransferPlayer.destination_school p))
              && truthy (destination_school item)
           then with_destination_school (destination_school item) p else p).
  - destruct (_ && _ && _) eqn:E; [|apply gaps_filled_refl].
    apply andb_true_iff in E as [[Hconf Hgap%negb_true_iff]%andb_true_iff Hval].
    split; [by destruct p|]. cbn. split; [done|]. split; [congruence|].
    split; [done|]. intros _. by exists item.
  - set (p1 := if _ && _ && _ then _ else _).
    assert (Hname : TransferPlayer.name p1 = TransferPlayer.name p).
    { subst p1. by destruct (_ && _ && _). }
    destruct (negb (truthy (TransferPlayer.previous_school p1))
              && truthy (previous_school item)) eqn:E; [|apply gaps_filled_refl].
    apply andb_true_iff in E as [Hgap%negb_true_iff Hval].
    split; [by destruct p1|]. cbn. split; [congruence|]. split; [done|].
    split; [|done]. intros _. exists item. by rewrite Hname.
Qed.

Lemma foldl_enrich_gaps_filled found p (news_items : list TransferNewsItem) :
  (forall item, item ∈ news_items -> reported found (TransferPlayer.name p) item) ->
  gaps_filled found p (foldl enrich p news_items).
Proof.
  assert (Hgen : forall p0, gaps_filled found p p0 ->
            (forall item, item ∈ news_items ->
               reported found (TransferPlayer.name p) item) ->
            gaps_filled found p (foldl enrich p0 news_items)).
  { induction news_items as [|item rest IH]; intros p0 H0 Hall; cbn; [done|].
    apply IH; [|intros; apply Hall; by apply list_elem_of_further].
    eapply gaps_filled_trans; [exact H0|]. apply enrich_gaps_filled.
    rewrite (gaps_filled_name _ _ _ H0). apply Hall. apply list_elem_of_here. }
  apply Hgen, gaps_filled_refl.
Qed.

(** The first loop keeps the keys in place and fills gaps only. *)
Lemma enrich_players_spec found i (players : list (string * TransferPlayer.t)) :
  Forall2 (fun e e' => e.1 = e'.1 /\ gaps_filled found e.2 e'.2)
    players (enrich_players found i players).1.
Proof.
  revert i. induction players as [|[k p] rest IH]; intros i; cbn; [constructor|].
  destruct (found i (TransferPlayer.name p)) as [news_items|e] eqn:E.
  - specialize (IH (S i)). destruct (enrich_players found (S i) rest) as [rest' e'].
    cbn. constructor; [|exact IH]. split; [done|]. cbn.
    apply foldl_enrich_gaps_filled. intros item Hin. by exists i, news_items.
  - cbn. apply Forall2_same_length_lookup_2; [done|].
    intros j [k1 p1] [k2 p2] H1 H2. rewrite H1 in H2. injection H2 as <- <-.
    split; [done | apply gaps_filled_refl].
Qed.

Lemma Forall2_alist_lookup {V W : Type} (R : V -> W -> Prop)
    (l : list (string * V)) (l' : list (string * W)) k :
  Forall2 (fun e e' => e.1 = e'.1 /\ R e.2 e'.2) l l' ->
  match Alist.lookup k l, Alist.lookup k l' with
  | Some v, Some w => R v w
  | None, None => True
  | _, _ => False
  end.
Proof.
  induction 1 as [|[k1 v] [k2 w] l l' [Hk HR] _ IH]; cbn; [done|].
  cbn in Hk, HR. subst k2. by destruct (decide (k = k1)).
Qed.

Lemma enrich_players_lookup found (players : list (string * TransferPlayer.t)) k p' :
  Alist.lookup k (enrich_players found 0 players).1 = Some p' ->
  exists p, Alist.lookup k players = Some p /\ gaps_filled found p p'.
Proof.
  intros H. pose proof (Forall2_alist_lookup _ _ _ k (enrich_players_spec found 0 players))
    as Hl.
  rewrite H in Hl. destruct (Alist.lookup k players) as [p|]; [|done]. by exists p.
Qed.

Lemma enrich_players_keys found i (players : list (string * TransferPlayer.t)) :
  Alist.keys (enrich_players found i players).1 = Alist.keys players.
Proof.
  unfold Alist.keys. symmetry.
  pose proof (enrich_players_spec found i players) as H.
  induction H as [|e e' l l' [Hk _] _ IH]; cbn; [done|]. by rewrite Hk, IH.
Qed.

(** One step of the second loop: the keys stay, and a player that was
    not in the store before comes from a confident portal entry of the
    group. *)
Lemma add_from_news_spec (news_items : NewsMonitor.store)
    (players : list (string * TransferPlayer.t)) (group : string * NewsMonitor.store) :
  (forall entry, entry ∈ group.2 -> entry ∈ news_items) ->
  (forall k, k ∈ Alist.keys players -> k ∈ Alist.keys (add_from_news players group))
  /\ forall k p', Alist.lookup k (add_from_news players group) = Some p' ->
       Alist.lookup k players = Some p' \/ created_from_news news_items k p'.
Proof.
  intros Hsub. unfold add_from_news.
  destruct (existsb _ _); [by split; [|left]|].
  destruct (sort more_confident _) as [|best_item others] eqn:Esort; [by split; [|left]|].
  destruct (PrimFloat.leb 0.8 (confidence_score best_item)) eqn:Econf;
    [|by split; [|left]].
  split; [intros k Hk; by apply alist_set_keys_mono|].
  intros k p'. rewrite alist_lookup_set.
  destruct (decide (k = _)) as [->|Hne]; [|by left].
  intros [= <-]. right.
  assert (Hin : best_item ∈ List.filter (has_event PORTAL_ENTRY) group.2.*2).
  { rewrite <- (sort_permutation more_confident), Esort. apply list_elem_of_here. }
  apply list_elem_of_In, filter_In in Hin as [Hin Hev].
  apply list_elem_of_In, list_elem_of_fmap in Hin as ([key item] & -> & Hin).
  exists key, item. cbn in *. split; [by apply Hsub|].
  split; [by apply has_event_true|]. done.
Qed.

Lemma add_all_from_news_spec (news_items : NewsMonitor.store)
    (groups : list (string * NewsMonitor.store))
    (players : list (string * TransferPlayer.t)) :
  (forall group entry, group ∈ groups -> entry ∈ group.2 -> entry ∈ news_items) ->
  (forall k, k ∈ Alist.keys players ->
     k ∈ Alist.keys (foldl add_from_news players groups))
  /\ forall k p', Alist.lookup k (foldl add_from_news players groups) = Some p' ->
       Alist.lookup k players = Some p' \/ created_from_news news_items k p'.
Proof.
  revert players. induction groups as [|group groups IH]; intros players Hsub; cbn;
    [by split; [|left]|].
  destruct (add_from_news_spec news_items players group) as [Hk1 Hl1].
  { intros entry. apply Hsub, list_elem_of_here. }
  destruct (IH (add_from_news players group)) as [Hk2 Hl2].
  { intros g entry Hg. apply Hsub. by apply list_elem_of_further. }
  split; [intros k Hk; by apply Hk2, Hk1|].
  intros k p' [H|H]%Hl2; [by apply Hl1 | by right].
Qed.

Lemma group_by_player_entries (news_items : NewsMonitor.store)
    (group : string * NewsMonitor.store) entry :
  group ∈ group_by_player news_items [] -> entry ∈ group.2 -> entry ∈ news_items.
Proof.
  intros Hg He.
  rewrite <- (app_nil_l news_items).
  change (@nil (string * TransferNewsItem))
    with (concat (Alist.values (@nil (string * NewsMonitor.store)))).
  rewrite <- (group_by_player_concat news_items []).
  eapply elem_of_concat; [|exact He].
  unfold Alist.values. apply list_elem_of_fmap. by exists group.
Qed.

(** X12. The integration of news drops no player, and every player it
    leaves in the store is either a player that was there, changed at
    most in an empty previous or destination school (filled from a news
    item that reports a commitment or a portal entry, with a confidence of
    0.7 or more for the destination), or a bare record created from a
    news item that reports a portal entry with a confidence of 0.8 or
    more, listed under [DataSource.ALL]. *)
Theorem news_integration_fills_gaps_or_creates found (news_items : NewsMonitor.store)
    (players : list (string * TransferPlayer.t)) :
  let players' := (_integrate_news_data found news_items players).1 in
  (forall k, k ∈ Alist.keys players -> k ∈ Alist.keys players')
  /\ (forall k p', Alist.lookup k players' = Some p' ->
        (exists p, Alist.lookup k players = Some p /\ gaps_filled found p p')
        \/ (created_from_news news_items k p'
            /\ TransferPlayer.sources p' = [ALL]
            /\ TransferPlayer.status p' = Some "in portal")).
Proof.
  unfold _integrate_news_data.
  pose proof (enrich_players_keys found 0 players) as Hkeys.
  pose proof (enrich_players_lookup found players) as Hlook.
  destruct (enrich_players found 0 players) as [mid [e|]];
    cbn [fst] in *; cbv zeta.
  - split; [by rewrite Hkeys|]. intros k p' H. left. by apply Hlook.
  - destruct (add_all_from_news_spec news_items (group_by_player news_items []) mid)
      as [Hk Hl]; [apply group_by_player_entries|].
    split; [intros k Hin; apply Hk; by rewrite Hkeys|].
    intros k p' [H|H]%Hl; [left; by apply Hlook|].
    right. split; [done|]. by destruct H as (key & item & _ & _ & _ & _ & ->).
Qed.





End NewsIntegrationProperties.

(* ===================================================================== *)
(** * Properties of the records the agents build                          *)
(* ===================================================================== *)

Section AgentRecords.
Import Py Orchestrator Spec Agents.

(** X14. The records the three agents build always carry a name, so no
    record of theirs cuts a batch short, and none carries a
    [previous_school]: the identity of a scraped player is the stripped
    name in lower case without spaces, whatever the team of the row. *)
Theorem scraped_records_are_keyed_by_name (build : Row -> Raw.t) (rows : list Row) :
  build = on3_record \/ build = rivals_record \/ build = sports247_record ->
  named_prefix (build <$> rows) = build <$> rows
  /\ forall row,
       identity (build row)
       = Some (remove_spaces (lower (str_strip (cell_text (name_cell row))))).
Proof.
  intros Hbuild.
  assert (Hname : forall row,
            Raw.name (build row) = Some (str_strip (cell_text (name_cell row)))
            /\ Raw.previous_school (build row) = None).
  { intros row. by destruct Hbuild as [-> | [-> | ->]]. }
  split.
  - induction rows as [|row rows IH]; cbn; [done|].
    destruct (Hname row) as [-> _]. by rewrite IH.
  - intros row. unfold identity. by destruct (Hname row) as [-> ->].
Qed.

Lemma scraped_records_are_keyed_by_name_witness :
  identity (rivals_record (bare_row " Amy Lee " "7")) = Some "amylee".
Proof.
  destruct (scraped_records_are_keyed_by_name rivals_record [] (or_intror (or_introl eq_refl)))
    as [_ H].
  rewrite H. reflexivity.
Defined.


End AgentRecords.

(* ===================================================================== *)
(** * Properties of the extraction from text                              *)
(* ===================================================================== *)

Section NewsExtractionProperties.
Import Py NewsMonitor NewsExtraction.

Lemma string_app_cons (x : ascii) (a b : string) :
  String x a +:+ b = String x (a +:+ b).
Proof. reflexivity. Qed.

Lemma string_app_nil_l (a : string) : "" +:+ a = a.
Proof. reflexivity. Qed.

Lemma string_app_assoc (a b c : string) : (a +:+ b) +:+ c = a +:+ (b +:+ c).
Proof. induction a as [|x a IH]; [done|]. by rewrite !string_app_cons, IH. Qed.

Lemma string_app_nil_r (a : string) : a +:+ "" = a.
Proof. induction a as [|x a IH]; [done|]. by rewrite string_app_cons, IH. Qed.

Lemma lower_app (a b : string) : lower (a +:+ b) = lower a +:+ lower b.
Proof.
  induction a as [|x a IH]; [done|].
  rewrite string_app_cons. cbn [lower]. by rewrite string_app_cons, IH.
Qed.

Lemma prefix_spec (a t : string) :
  String.prefix a t = true <-> exists post, t = a +:+ post.
Proof.
  revert t. induction a as [|x a IH]; intros t.
  - split; [by exists t | by destruct t].
  - destruct t as [|y t]; cbn [String.prefix]; [split; [done | by intros [? ?]]|].
    destruct (Ascii.ascii_dec x y) as [->|Hne].
    + rewrite IH. split; intros [post H]; exists post.
      * by rewrite string_app_cons, H.
      * rewrite string_app_cons in H. by injection H.
    + split; [done|]. intros [post H]. rewrite string_app_cons in H.
      by injection H as -> _.
Qed.

Lemma contains_unfold (a t : string) :
  contains a t
  = if String.prefix a t then true
    else match t with
         | EmptyString => false
         | String _ t' => contains a t'
         end.
Proof. by destruct t. Qed.

(** [needle in hay] holds exactly when [needle] is a part of [hay]. *)
Lemma contains_spec (a t : string) : contains a t = true <-> part_of a t.
Proof.
  split.
  - induction t as [|y t IH]; rewrite contains_unfold;
      destruct (String.prefix a _) eqn:E; try done.
    + apply prefix_spec in E as [post ->]. by exists "", post.
    + apply prefix_spec in E as [post ->]. by exists "", post.
    + intros (pre & post & ->)%IH. by exists (String y pre), post.
  - intros (pre & post & ->). induction pre as [|y pre IH].
    + rewrite contains_unfold, string_app_nil_l.
      by rewrite (proj2 (prefix_spec a (a +:+ post)) (ex_intro _ post eq_refl)).
    + rewrite contains_unfold, string_app_cons. by destruct (String.prefix a _).
Qed.

Lemma part_of_trans (a b c : string) : part_of a b -> part_of b c -> part_of a c.
Proof.
  intros (pre & post & ->) (pre' & post' & ->).
  exists (pre' +:+ pre), (post +:+ post'). by rewrite !string_app_assoc.
Qed.

Lemma part_of_app_l (a b c : string) : part_of a b -> part_of a (b +:+ c).
Proof.
  intros (pre & post & ->). exists pre, (post +:+ c). by rewrite !string_app_assoc.
Qed.

Lemma part_of_app_r (a b c : string) : part_of a c -> part_of a (b +:+ c).
Proof.
  intros (pre & post & ->). exists (b +:+ pre), post. by rewrite !string_app_assoc.
Qed.

Lemma part_of_empty (a : string) : part_of a "" -> a = "".
Proof.
  intros (pre & post & H). destruct pre as [|x pre]; [|done]. by destruct a.
Qed.

(** ** Event types *)

Lemma detect_filter (text : string) (table : list (TransferEventType * list string))
    (event_types : list TransferEventType) :
  detect text table event_types
  = event_types
    ++ (List.filter (fun entry => existsb (fun pattern => occurs pattern text) entry.2)
          table).*1.
Proof.
  revert event_types. induction table as [|[e ps] table IH]; intros acc; cbn.
  - by rewrite app_nil_r.
  - destruct (existsb _ ps); rewrite IH; [by rewrite <- app_assoc | done].
Qed.

Lemma List_filter_sublist {A : Type} (f : A -> bool) (l : list A) :
  List.filter f l `sublist_of` l.
Proof.
  induction l as [|x l IH]; cbn; [done|].
  destruct (f x); [by apply sublist_skip | by apply sublist_cons].
Qed.

Lemma detect_signalled (text : string) (e : TransferEventType) :
  e ∈ detect text event_patterns [] <-> signalled e text.
Proof.
  rewrite detect_filter, app_nil_l, list_elem_of_fmap. split.
  - intros ([e' ps] & -> & [Hin Hex]%list_elem_of_In%filter_In).
    cbn in Hex. apply existsb_exists in Hex as (pattern & Hp & Hocc).
    exists ps, pattern. split; [by apply list_elem_of_In|].
    split; [by apply list_elem_of_In | by apply contains_spec].
  - intros (ps & pattern & Hin & Hp & Hocc). exists (e, ps). split; [done|].
    apply list_elem_of_In, filter_In. split; [by apply list_elem_of_In|].
    cbn. apply existsb_exists. exists pattern.
    split; [by apply list_elem_of_In | by apply contains_spec].
Qed.

Lemma signalled_nonempty (e : TransferEventType) : ~ signalled e "".
Proof.
  intros (ps & pattern & Hin & Hp & Hocc%part_of_empty).
  assert (Hall : Forall (fun entry : TransferEventType * list string =>
                           Forall (fun q => lower q <> "") entry.2) event_patterns).
  { unfold event_patterns. repeat constructor; discriminate. }
  rewrite Forall_forall in Hall. specialize (Hall _ Hin).
  rewrite Forall_forall in Hall. by apply (Hall pattern).
Qed.

Lemma detect_event_types_signalled title content (e : TransferEventType) :
  e ∈ _detect_event_types title content <-> signalled e (combined_text title content).
Proof.
  unfold _detect_event_types. cbv zeta. unfold truthy.
  destruct (String.eqb_spec (combined_text title content) "") as [->|Hne]; cbn [negb].
  - split; [by intros ?%elem_of_nil | by intros ?%signalled_nonempty].
  - apply detect_signalled.
Qed.

Lemma signalled_app_l (e : TransferEventType) (a b : string) :
  signalled e a -> signalled e (a +:+ b).
Proof.
  intros (ps & pattern & Hin & Hp & Hocc). exists ps, pattern.
  split; [done|]. split; [done|]. rewrite lower_app. by apply part_of_app_l.
Qed.

Lemma signalled_app_r (e : TransferEventType) (a b : string) :
  signalled e b -> signalled e (a +:+ b).
Proof.
  intros (ps & pattern & Hin & Hp & Hocc). exists ps, pattern.
  split; [done|]. split; [done|]. rewrite lower_app. by apply part_of_app_r.
Qed.

(** X16. The event types detected in a title and a content are listed in
    the order of the pattern table, each once; an event type is detected
    exactly when one of its patterns occurs in the combined text, in any
    case of the letters; and what the title alone or the content alone
    signals is also detected in the two together. *)
Theorem event_types_follow_the_pattern_table (title content : option string) :
  let found := _detect_event_types title content in
  found `sublist_of` event_patterns.*1
  /\ NoDup found
  /\ (forall e, e ∈ found <-> signalled e (combined_text title content))
  /\ (forall e, e ∈ _detect_event_types title None
                \/ e ∈ _detect_event_types None content -> e ∈ found).
Proof.
  cbv zeta.
  assert (Hsub : _detect_event_types title content `sublist_of` event_patterns.*1).
  { unfold _detect_event_types. cbv zeta.
    destruct (negb _); [apply sublist_nil_l|].
    rewrite detect_filter, app_nil_l. apply fmap_sublist, List_filter_sublist. }
  split; [exact Hsub|]. split; [|split].
  - eapply sublist_NoDup; [|exact Hsub].
    unfold event_patterns. cbn. repeat constructor; set_solver.
  - apply detect_event_types_signalled.
  - intros e. rewrite !detect_event_types_signalled. unfold combined_text.
    cbn [truthy]. rewrite string_app_nil_r, string_app_nil_l.
    intros [H|H]; [by apply signalled_app_l | by apply signalled_app_r].
Qed.

(** ** Schools *)

Lemma mention_aliased_spec (text : string) (table : list (string * list string))
    (mentioned : list string) :
  exists added,
    mention_aliased text table mentioned = mentioned ++ added
    /\ added `sublist_of` table.*1
    /\ forall school aliases,
         (school, aliases) ∈ table ->
         contains school text = true
         \/ (exists alias, alias ∈ aliases /\ contains alias text = true) ->
         school ∈ added.
Proof.
  revert mentioned. induction table as [|[school aliases] table IH]; intros mentioned; cbn.
  - exists []. rewrite app_nil_r. split; [done|]. split; [done|].
    by intros ? ? ?%elem_of_nil.
  - destruct (contains school text) eqn:Ename;
      [|destruct (existsb (fun alias => contains alias text) aliases) eqn:Ealias].
    + destruct (IH (mentioned ++ [school])) as (added & -> & Hsub & Hall).
      exists (school :: added). rewrite <- app_assoc. split; [done|].
      split; [by apply sublist_skip|].
      intros s a [[= -> ->]|Hin]%elem_of_cons Hs; [apply list_elem_of_here|].
      apply list_elem_of_further. by eapply Hall.
    + destruct (IH (mentioned ++ [school])) as (added & -> & Hsub & Hall).
      exists (school :: added). rewrite <- app_assoc. split; [done|].
      split; [by apply sublist_skip|].
      intros s a [[= -> ->]|Hin]%elem_of_cons Hs; [apply list_elem_of_here|].
      apply list_elem_of_further. by eapply Hall.
    + destruct (IH mentioned) as (added & -> & Hsub & Hall).
      exists added. split; [done|]. split; [by apply sublist_cons|].
      intros s a [[= <- <-]|Hin]%elem_of_cons Hs; [|by eapply Hall].
      destruct Hs as [Hs|(alias & Hin & Hs)]; [congruence|].
      assert (existsb (fun alias => contains alias text) a = true); [|congruence].
      apply existsb_exists. exists alias. split; [by apply list_elem_of_In | done].
Qed.

Lemma mention_named_spec (text : string) (names mentioned : list string) :
  NoDup mentioned ->
  NoDup (mention_named text names mentioned)
  /\ (forall s, s ∈ mentioned -> s ∈ mention_named text names mentioned)
  /\ (forall s, s ∈ mention_named text names mentioned -> s ∈ mentioned \/ s ∈ names)
  /\ (forall s, s ∈ names -> contains s text = true ->
        s ∈ mention_named text names mentioned).
Proof.
  revert mentioned. induction names as [|school names IH]; intros mentioned Hnd; cbn.
  - split; [done|]. split; [done|]. split; [by left|]. by intros ? ?%elem_of_nil.
  - destruct (contains school text) eqn:Ename; cbn [andb];
      [case_bool_decide as Hin; cbn [negb]|].
    + destruct (IH mentioned Hnd) as (H1 & H2 & H3 & H4).
      split; [done|]. split; [done|].
      split; [intros s [?|?]%H3; [by left | right; by apply list_elem_of_further]|].
      intros s [-> | Hs]%elem_of_cons Hc; [by apply H2 | by apply H4].
    + destruct (IH (mentioned ++ [school])) as (H1 & H2 & H3 & H4).
      { apply NoDup_app. split; [done|]. split; [|apply NoDup_singleton].
        intros x Hx ->%list_elem_of_singleton. done. }
      split; [done|].
      split; [intros s Hs; apply H2, elem_of_app; by left|].
      split.
      * intros s [[? | ->%list_elem_of_singleton]%elem_of_app | ?]%H3;
          [by left | right; apply list_elem_of_here
           | right; by apply list_elem_of_further].
      * intros s [-> | Hs]%elem_of_cons Hc; [|by apply H4].
        apply H2, elem_of_app. right. apply list_elem_of_here.
    + destruct (IH mentioned Hnd) as (H1 & H2 & H3 & H4).
      split; [done|]. split; [done|].
      split; [intros s [?|?]%H3; [by left | right; by apply list_elem_of_further]|].
      intros s [-> | Hs]%elem_of_cons Hc; [congruence | by apply H4].
Qed.

(** X17. The schools a text is taken to mention are listed once each and
    belong to the list of programs; the list holds every program whose
    name is a part of the text - also when that name is only a part of
    the name of another program the text mentions - and every program of
    the alias table one of whose aliases is a part of the text, so that
    [Wildcats] alone yields both Kentucky and Arizona. *)
Theorem school_mentions_are_substring_matches (text : string) :
  let found := _extract_school_mentions text in
  NoDup found
  /\ (forall s, s ∈ found -> s ∈ school_names)
  /\ (forall s, s ∈ school_names -> part_of s text -> s ∈ found)
  /\ (forall s s', s ∈ school_names -> part_of s s' -> part_of s' text -> s ∈ found)
  /\ (forall school aliases alias,
        (school, aliases) ∈ school_aliases -> alias ∈ aliases ->
        part_of alias text -> school ∈ found)
  /\ (part_of "Wildcats" text -> "Kentucky" ∈ found /\ "Arizona" ∈ found).
Proof.
  cbv zeta.
  assert (Hne : forall a, a <> "" -> part_of a text -> text <> "").
  { intros a Ha Hp ->. by apply Ha, part_of_empty. }
  assert (Hkeys : school_aliases.*1 ⊆ school_names).
  { apply (bool_decide_unpack _). by vm_compute. }
  assert (Hnames : "" ∉ school_names).
  { apply (bool_decide_unpack _). by vm_compute. }
  assert (Haliases : forall school aliases alias,
            (school, aliases) ∈ school_aliases -> alias ∈ aliases -> alias <> "").
  { intros school aliases alias Hin Ha ->.
    assert (Hall : Forall (fun entry : string * list string => "" ∉ entry.2)
                     school_aliases).
    { apply (bool_decide_unpack _). by vm_compute. }
    rewrite Forall_forall in Hall. by apply (Hall _ Hin). }
  unfold _extract_school_mentions, truthy.
  destruct (mention_aliased_spec text school_aliases []) as (added & Eq & Hsub & Hall).
  rewrite app_nil_l in Eq. rewrite Eq.
  assert (Hnd : NoDup added).
  { eapply sublist_NoDup; [|exact Hsub].
    apply (bool_decide_unpack _). by vm_compute. }
  destruct (mention_named_spec text school_names added Hnd) as (H1 & H2 & H3 & H4).
  assert (Hmain : forall s, s ∈ school_names -> part_of s text ->
            s ∈ (if negb (negb (text =? "")%string) then []
                 else mention_named text school_names added)).
  { intros s Hs Hp.
    destruct (String.eqb_spec text "") as [->|_]; cbn [negb].
    - apply part_of_empty in Hp as ->. done.
    - apply H4; [done | by apply contains_spec]. }
  assert (Halias : forall school aliases alias,
            (school, aliases) ∈ school_aliases -> alias ∈ aliases ->
            part_of alias text ->
            school ∈ (if negb (negb (text =? "")%string) then []
                      else mention_named text school_names added)).
  { intros school aliases alias Hin Ha Hp.
    destruct (String.eqb_spec text "") as [->|_]; cbn [negb].
    - apply part_of_empty in Hp. by destruct (Haliases _ _ _ Hin Ha).
    - apply H2. eapply Hall; [exact Hin|]. right. exists alias.
      split; [done | by apply contains_spec]. }
  split; [|split; [|split; [|split; [|split]]]].
  - destruct (negb (negb _)); [constructor | done].
  - destruct (negb (negb _)); [by intros ? ?%elem_of_nil|].
    intros s [Hs|Hs]%H3; [|done]. apply Hkeys. by eapply elem_of_sublist.
  - exact Hmain.
  - intros s s' Hs Hp Hp'. apply Hmain; [done|]. by eapply part_of_trans.
  - exact Halias.
  - intros Hp. split.
    + apply (Halias "Kentucky" ["UK"; "Wildcats"; "BBN"] "Wildcats");
        [|apply list_elem_of_further, list_elem_of_here | done].
      apply (bool_decide_unpack _). by vm_compute.
    + apply (Halias "Arizona" ["Wildcats"; "U of A"] "Wildcats");
        [|apply list_elem_of_here | done].
      apply (bool_decide_unpack _). by vm_compute.
Qed.

End NewsExtractionProperties.

(* ===================================================================== *)
(** * Properties of interleaved refresh cycles                            *)
(* ===================================================================== *)

Section InterleavingProperties.
Import Orchestrator Spec StoreSpec Interleaving.

Lemma refresh_begin_frame clk s st st' (start_time : float) :
  refresh_begin clk s st = Py.Ok (st', start_time) ->
  agents st' = agents st /\ players st' = players st
  /\ s ∈ Alist.keys (agents st)
  /\ forall s', is_Some (metrics st !! s') -> is_Some (metrics st' !! s').
Proof.
  unfold refresh_begin. intros H.
  destruct (Alist.lookup s (agents st)) as [c|] eqn:Ec; [|discriminate].
  destruct (metrics st !! s) as [m|] eqn:Em; [|discriminate].
  injection H as <- _. split; [done|]. split; [done|]. split.
  - apply alist_lookup_elem in Ec. unfold Alist.keys.
    apply list_elem_of_fmap. by exists (s, c).
  - intros s' Hs'. cbn. destruct (decide (s' = s)) as [->|Hne];
      [rewrite lookup_insert_eq; by eexists | by rewrite lookup_insert_ne].
Qed.

Lemma record_failure_configured s st : configured st -> configured (record_failure s st).
Proof.
  intros [Hnd Hc]. unfold record_failure.
  destruct (metrics st !! s) as [m|] eqn:E; [|done].
  split; [done|]. intros s' Hs'. cbn.
  destruct (decide (s' = s)) as [->|Hne];
    [rewrite lookup_insert_eq; by eexists | rewrite lookup_insert_ne by done; by apply Hc].
Qed.

Lemma record_failure_players s st : players (record_failure s st) = players st.
Proof. unfold record_failure. by destruct (metrics st !! s). Qed.

(** The second half of a cycle, in a configured state: the call returns
    [True] exactly when the scrape returned, and the state stays
    configured with the same agents and a store keyed by identity. *)
Lemma refresh_finish_spec clk s (start_time : float) scraped st :
  configured st -> s ∈ Alist.keys (agents st) -> well_keyed (players st) ->
  let out := refresh_finish clk s start_time scraped st in
  out.2 = scrape_returned scraped
  /\ configured out.1
  /\ Alist.keys (agents out.1) = Alist.keys (agents st)
  /\ well_keyed (players out.1).
Proof.
  intros Hconf Hs Hstore. cbv zeta. unfold refresh_finish.
  destruct (proj2 Hconf s Hs) as [m Hm]. rewrite Hm.
  destruct scraped as [data|e].
  - set (st2 := with_agents _ _).
    assert (Hconf2 : configured st2).
    { destruct Hconf as [Hnd Hc]. subst st2.
      unfold configured, with_agents, with_metrics. cbn [agents metrics].
      rewrite alist_keys_set, bool_decide_eq_true_2 by done.
      split; [done|]. intros s' Hs'.
      destruct (decide (s = s')) as [->|Hne];
        [rewrite lookup_insert_eq; by eexists
        | rewrite lookup_insert_ne by done; by apply Hc]. }
    assert (Hkeys2 : Alist.keys (agents st2) = Alist.keys (agents st)).
    { subst st2. unfold with_agents, with_metrics. cbn [agents].
      by rewrite alist_keys_set, bool_decide_eq_true_2. }
    pose proof (consolidate_data_ok (fun i => clk (2 + i)%nat) st2 Hconf2) as Hok.
    destruct (consolidate_data_frame (fun i => clk (2 + i)%nat) st2) as [Hag Hme].
    pose proof (consolidate_data_well_keyed (fun i => clk (2 + i)%nat) st2) as Hwk.
    destruct (consolidate_data _ st2) as [st3 oe]. cbn [fst snd] in *. subst oe.
    cbn [fst snd scrape_returned].
    split; [done|]. split; [|split].
    + unfold configured. by rewrite Hag, Hme.
    + by rewrite Hag.
    + apply Hwk. by subst st2.
  - cbn [fst snd scrape_returned]. split; [done|].
    split; [by apply record_failure_configured|]. split.
    + unfold record_failure. by rewrite Hm.
    + by rewrite record_failure_players.
Qed.

Lemma interleaved_invariant st :
  interleaved st ->
  configured st
  /\ Alist.keys (agents st) = [ON3; RIVALS; TWO47]
  /\ well_keyed (players st).
Proof.
  induction 1 as [interval
                 |st st' clk s start_time _ (Hconf & Hkeys & Hstore) Hbegin
                 |st clk s start_time scraped _ (Hconf & Hkeys & Hstore) Hs].
  - split; [apply init_configured|]. split; [done|].
    split; [constructor | intros k p Hin; by apply elem_of_nil in Hin].
  - destruct (refresh_begin_frame _ _ _ _ _ Hbegin) as (Hag & Hpl & _ & Hme).
    split; [|split].
    + destruct Hconf as [Hnd Hc]. unfold configured. rewrite Hag.
      split; [done|]. intros s' Hs'. by apply Hme, Hc.
    + by rewrite Hag.
    + by rewrite Hpl.
  - destruct (refresh_finish_spec clk s start_time scraped st Hconf Hs Hstore)
      as (_ & Hc' & Hk' & Hs').
    split; [done|]. split; [by rewrite Hk' | done].
Qed.

Lemma reachable_interleaved st : reachable st -> interleaved st.
Proof.
  induction 1 as [interval|st clk s scraped _ IH]; [constructor|].
  unfold refresh_agent. destruct (refresh_begin clk s st) as [[st1 t]|e] eqn:E; [|done].
  cbn [after].
  destruct (refresh_begin_frame _ _ _ _ _ E) as (Hag & _ & Hs & _).
  change (interleaved (refresh_finish (fun i => clk (2 + i)%nat) s t scraped st1).1).
  eapply interleaved_finish; [by eapply interleaved_begin|]. by rewrite Hag.
Qed.

(** X18. However the refresh cycles of the sources interleave at their
    [await agent.scrape_players()], the orchestrator keeps its three
    agents, each with its metrics entry, and a store keyed by identity;
    and in every such state the second half of a cycle returns [True]
    exactly when the scrape returned: the consolidation pass that follows
    a scrape never fails.  The states reached by cycles that run one
    after the other are among them. *)
Theorem interleaved_refreshes_keep_the_state_well_formed st :
  interleaved st ->
  (configured st
   /\ Alist.keys (agents st) = [ON3; RIVALS; TWO47]
   /\ well_keyed (players st))
  /\ forall clk s (start_time : float) scraped,
       s ∈ Alist.keys (agents st) ->
       (refresh_finish clk s start_time scraped st).2 = scrape_returned scraped.
Proof.
  intros (Hconf & Hkeys & Hstore)%interleaved_invariant. split; [done|].
  intros clk s start_time scraped Hs.
  by destruct (refresh_finish_spec clk s start_time scraped st Hconf Hs Hstore).
Qed.

Lemma interleaved_refreshes_keep_the_state_well_formed_witness :
  well_keyed (players Examples.on3_failed_rivals_succeeded).
Proof.
  apply (interleaved_refreshes_keep_the_state_well_formed
           Examples.on3_failed_rivals_succeeded).
  apply reachable_interleaved. do 4 apply reachable_refresh. apply reachable_init.
Defined.

End InterleavingProperties.

(* ===================================================================== *)
(** * Properties of the single-agent API and of the tracker agent         *)
(* ===================================================================== *)

Section SmallApis.
Import Py Api Agents.

Lemma lower_nonempty (s : string) : s <> "" -> lower s <> "".
Proof. by destruct s. Qed.

Lemma contains_in_empty (needle : string) : needle <> "" -> contains needle "" = false.
Proof. by destruct needle. Qed.

(** X19. The single-agent API filters schools on the keys
    [previous_school] and [destination_school], which no record of the
    ON3 agent carries (it writes [last_team] and [new_team]): for every
    cache the ON3 agent can fill and every non-empty school, the school
    filter leaves no player.  A limit of 0 leaves no player either. *)
Theorem school_filter_of_simple_api_matches_nothing (rows : list Row) (limit : Z)
    (position : option string) (school : string) :
  school <> "" ->
  SimpleApi.get_players (on3_record <$> rows) limit position (Some school) = []
  /\ SimpleApi.get_players (on3_record <$> rows) 0 position None = [].
Proof.
  intros Hschool. unfold SimpleApi.get_players.
  destruct (on3_record <$> rows) as [|r l] eqn:E; [done|]. rewrite <- E. split.
  - assert (Htruthy : truthy (Some school) = true).
    { cbn. by destruct (String.eqb_spec school ""). }
    rewrite Htruthy.
    assert (Hnone : forall l0 : list Row,
              List.filter
                (fun p => SimpleApi.mentions (default "" (Some school)) (Raw.previous_school p)
                          || SimpleApi.mentions (default "" (Some school))
                               (Raw.destination_school p))
                (List.filter (fun p => SimpleApi.mentions (default "" position)
                                         (Raw.position p))
                   (on3_record <$> l0)) = []
              /\ List.filter
                   (fun p => SimpleApi.mentions (default "" (Some school))
                               (Raw.previous_school p)
                             || SimpleApi.mentions (default "" (Some school))
                                  (Raw.destination_school p))
                   (on3_record <$> l0) = []).
    { assert (Hno : forall row : Row,
                SimpleApi.mentions school (Raw.previous_school (on3_record row))
                || SimpleApi.mentions school (Raw.destination_school (on3_record row))
                = false).
      { intros row. unfold SimpleApi.mentions. cbn [Raw.previous_school
          Raw.destination_school on3_record default lower].
        by rewrite contains_in_empty by by apply lower_nonempty. }
      induction l0 as [|row l0 [IH1 IH2]]; [done|]. cbn [fmap list_fmap List.filter].
      cbn [default] in *. rewrite Hno. split; [|done].
      destruct (SimpleApi.mentions _ (Raw.position (on3_record row)));
        cbn [List.filter]; [by rewrite Hno | done]. }
    destruct (Hnone rows) as [H1 H2].
    destruct (truthy position); [rewrite H1 | rewrite H2];
      unfold slice_to; by destruct (0 <=? limit)%Z; rewrite ?take_nil.
  - cbn [truthy]. unfold slice_to. cbn. by rewrite take_0.
Qed.

Lemma school_filter_of_simple_api_matches_nothing_witness :
  SimpleApi.get_players
    (on3_record <$> [mkRow (Some "1") (Some "Amy") (Some "G") (Some "Entered")
                       (Some "Duke") None None])
    20 None (Some "Duke") = [].
Proof.
  apply (school_filter_of_simple_api_matches_nothing
           [mkRow (Some "1") (Some "Amy") (Some "G") (Some "Entered")
              (Some "Duke") None None] 20 None "Duke").
  discriminate.
Defined.

Lemma tracker_refresh_data_keeps_data settings (current_time : float) scrapes a :
  Tracker.data (Tracker.refresh_data settings current_time scrapes a).1 = Tracker.data a.
Proof.
  unfold Tracker.refresh_data. destruct (PrimFloat.ltb _ _); [done|].
  by destruct (Tracker.extend _ _ _).
Qed.

Lemma tracker_get_players_keeps_data {P : Type} (validate : Raw.t -> option P)
    settings (current_time : float) scrapes a :
  Tracker.data (Tracker.get_players validate settings current_time scrapes a).1
  = Tracker.data a.
Proof.
  unfold Tracker.get_players.
  pose proof (tracker_refresh_data_keeps_data settings current_time scrapes a) as H.
  destruct (Tracker.data a) as [|r l] eqn:E.
  - destruct (Tracker.refresh_data settings current_time scrapes a) as [a' [l'|c]];
      cbn [fst] in H; cbn.
    + rewrite H. cbn. done.
    + done.
  - cbn. rewrite E. by destruct (Tracker.validate_all validate (r :: l)).
Qed.

Lemma tracker_data_empty a : Tracker.reachable a -> Tracker.data a = [].
Proof.
  induction 1 as [|a settings current_time scrapes _ IH
                   |a settings current_time scrapes _ IH]; [done| |].
  - by rewrite tracker_refresh_data_keeps_data.
  - by rewrite tracker_get_players_keeps_data.
Qed.

(** X20. No call ever fills the list [self.data] of the tracker agent
    ([refresh_data] fills the module's cache instead), so in every state
    of the agent [GET /players] returns no player: it answers with the
    empty list when the refresh it triggers returns, and with a 500 when
    that refresh raises - whatever the sources deliver and however the
    [Player] model validates. *)
Theorem tracker_get_players_returns_no_player {P : Type} (validate : Raw.t -> option P)
    settings (current_time : float) scrapes a :
  Tracker.reachable a ->
  Tracker.data a = []
  /\ (Tracker.get_players validate settings current_time scrapes a).2
     = match (Tracker.refresh_data settings current_time scrapes a).2 with
       | Body _ => Body []
       | HTTPException _ => HTTPException 500
       end.
Proof.
  intros Hdata%tracker_data_empty. split; [done|].
  unfold Tracker.get_players. rewrite Hdata.
  pose proof (tracker_refresh_data_keeps_data settings current_time scrapes a) as H.
  destruct (Tracker.refresh_data settings current_time scrapes a) as [a' [l'|c]];
    cbn [fst snd] in *; [|done].
  by rewrite H, Hdata.
Qed.

Lemma tracker_get_players_returns_no_player_witness :
  (Tracker.get_players (fun player => Some player)
     (Tracker.mkSettings 300 true true true) 1000
     (Tracker.mkScrapes (Ok [Examples.ranked "Amy" 10]) (Raise ScrapeError) (Ok []))
     (Tracker.refresh_data (Tracker.mkSettings 300 true true true) 1000
        (Tracker.mkScrapes (Ok [Examples.ranked "Amy" 10]) (Raise ScrapeError) (Ok []))
        Tracker.init).1).2
  = Body [].
Proof.
  destruct (tracker_get_players_returns_no_player (fun player => Some player)
              (Tracker.mkSettings 300 true true true) 1000
              (Tracker.mkScrapes (Ok [Examples.ranked "Amy" 10]) (Raise ScrapeError)
                 (Ok []))
              (Tracker.refresh_data (Tracker.mkSettings 300 true true true) 1000
                 (Tracker.mkScrapes (Ok [Examples.ranked "Amy" 10]) (Raise ScrapeError)
                    (Ok []))
                 Tracker.init).1)
    as [_ ->].
  - apply Tracker.reachable_refresh_data, Tracker.reachable_init.
  - reflexivity.
Defined.

End SmallApis.

(* ===================================================================== *)
(** * Two edges of the query and of the majority vote                     *)
(* ===================================================================== *)

Section Edges.
Import Orchestrator Spec NewsMonitor NewsSpec.

(** X21. A negative limit is not rejected: it is truthy, and the slice
    it selects drops that many players from the end of the filtered and
    sorted list (all of them when the list is shorter). *)
Theorem negative_limit_cuts_the_tail st query (n : Z) :
  PortalQuery.limit query = Some n -> (n < 0)%Z -> players st <> [] ->
  query_players st query
  = take (length (selected st query) - Z.to_nat (- n)) (selected st query)
  /\ length (query_players st query)
     = (length (selected st query) - Z.to_nat (- n))%nat.
Proof.
  intros Hlimit Hn Hne.
  rewrite (negative_limit_drops_from_the_end st query n Hlimit Hn Hne).
  split; [done|]. rewrite length_take. lia.
Qed.

Lemma negative_limit_cuts_the_tail_witness :
  length (query_players Examples.three_players
            (PortalQuery.with_limit (Some (-1)%Z) PortalQuery.default)) = 2%nat.
Proof.
  destruct (negative_limit_cuts_the_tail Examples.three_players
              (PortalQuery.with_limit (Some (-1)%Z) PortalQuery.default) (-1))
    as [_ ->].
  - reflexivity.
  - lia.
  - discriminate.
  - vm_compute. reflexivity.
Defined.

(** X22. The value that post-processing takes as the majority of a
    school field among the signals about a player is never empty, and no
    other non-empty value is carried by more of these signals. *)
Theorem majority_school_is_most_frequent (field : TransferNewsItem -> option string)
    (news : store) (name school : string) :
  majority field news name = Some school ->
  school <> ""
  /\ forall other : string, other <> "" ->
       (occurrences field other (signals news name)
        <= occurrences field school (signals news name))%nat.
Proof.
  intros Hm. split; [by eapply majority_nonempty|].
  intros other Hother. by apply majority_most_frequent.
Qed.

Lemma majority_school_is_most_frequent_witness :
  (occurrences destination_school "Kentucky" (signals three_signals "John Smith")
   <= occurrences destination_school "Duke" (signals three_signals "John Smith"))%nat.
Proof.
  apply (majority_school_is_most_frequent destination_school three_signals
           "John Smith" "Duke").
  - vm_compute. reflexivity.
  - discriminate.
Defined.

End Edges.

(* ===================================================================== *)
(** * Properties of the identity of a player                              *)
(* ===================================================================== *)

Section Identity.
Import Py Orchestrator.

Lemma lower_ascii_idem (a : ascii) : lower_ascii (lower_ascii a) = lower_ascii a.
Proof.
  unfold lower_ascii.
  destruct ((65 <=? nat_of_ascii a)%nat && (nat_of_ascii a <=? 90)%nat) eqn:E.
  - apply andb_true_iff in E as [H1%Nat.leb_le H2%Nat.leb_le].
    rewrite nat_ascii_embedding by lia.
    by replace ((65 <=? nat_of_ascii a + 32)%nat && (nat_of_ascii a + 32 <=? 90)%nat)
      with false by (symmetry; apply andb_false_iff; right; apply Nat.leb_gt; lia).
  - by rewrite E.
Qed.

Lemma lower_idem (s : string) : lower (lower s) = lower s.
Proof. induction s as [|a s IH]; cbn; [done|]. by rewrite lower_ascii_idem, IH. Qed.

Lemma lower_ascii_space (a : ascii) :
  Ascii.eqb (lower_ascii a) " " = Ascii.eqb a " ".
Proof.
  unfold lower_ascii.
  destruct ((65 <=? nat_of_ascii a)%nat && (nat_of_ascii a <=? 90)%nat) eqn:E; [|done].
  apply andb_true_iff in E as [H1%Nat.leb_le H2%Nat.leb_le].
  destruct (Ascii.eqb_spec a " ") as [->|Hne].
  { change (nat_of_ascii " ") with 32%nat in H1. lia. }
  apply Ascii.eqb_neq. intros H.
  apply (f_equal nat_of_ascii) in H. rewrite nat_ascii_embedding in H by lia.
  change (nat_of_ascii " ") with 32%nat in H. lia.
Qed.

Lemma remove_spaces_lower (s : string) :
  remove_spaces (lower s) = lower (remove_spaces s).
Proof.
  induction s as [|a s IH]; cbn; [done|]. rewrite lower_ascii_space.
  destruct (Ascii.eqb a " "); cbn; by rewrite IH.
Qed.

Lemma remove_spaces_idem (s : string) : remove_spaces (remove_spaces s) = remove_spaces s.
Proof.
  induction s as [|a s IH]; cbn; [done|].
  destruct (Ascii.eqb a " ") eqn:E; cbn; [done|]. by rewrite E, IH.
Qed.

Lemma remove_spaces_app (a b : string) :
  remove_spaces (a +:+ b) = remove_spaces a +:+ remove_spaces b.
Proof.
  induction a as [|x a IH]; [done|]. rewrite string_app_cons. cbn [remove_spaces].
  destruct (Ascii.eqb x " "); [done|]. by rewrite string_app_cons, IH.
Qed.

(** X23. The identity of a player contains no space and no upper-case
    ASCII letter, and does not change when the name is given in another
    case or spacing; an empty school counts as no school; and identities
    are not injective: a name and a school give the identity of the
    name, an underscore and the school taken as one name without
    school. *)
Theorem player_ids_normalise_and_collide (name : string) (school : option string) :
  let player_id := _generate_player_id name school in
  (lower player_id = player_id /\ remove_spaces player_id = player_id)
  /\ _generate_player_id (lower name) school = player_id
  /\ _generate_player_id (remove_spaces name) school = player_id
  /\ _generate_player_id name (Some "") = _generate_player_id name None
  /\ forall sc : string,
       sc <> "" ->
       _generate_player_id name (Some sc)
       = _generate_player_id (name +:+ "_" +:+ sc) None.
Proof.
  cbv zeta.
  assert (Hnorm : forall s, lower (remove_spaces (lower s)) = remove_spaces (lower s)
                            /\ remove_spaces (remove_spaces (lower s))
                               = remove_spaces (lower s)).
  { intros s. split; [by rewrite remove_spaces_lower, lower_idem
                      | by rewrite remove_spaces_idem]. }
  split; [|split; [|split; [|split]]].
  - unfold _generate_player_id. destruct school as [sc|]; [|apply Hnorm].
    destruct (truthy (Some sc)); [|apply Hnorm].
    rewrite !lower_app, !remove_spaces_app.
    destruct (Hnorm name) as [-> ->], (Hnorm sc) as [-> ->]. done.
  - unfold _generate_player_id. by rewrite lower_idem.
  - unfold _generate_player_id.
    by rewrite <- remove_spaces_lower, remove_spaces_idem.
  - reflexivity.
  - intros sc Hsc. unfold _generate_player_id, truthy.
    rewrite (proj2 (String.eqb_neq sc "") Hsc). cbn [negb].
    by rewrite !lower_app, !remove_spaces_app.
Qed.

End Identity.
